(** * StoryPilot core: a shallow embedding of [storypilot_core.py]

    The development follows the source file top to bottom:

    - [Py]: the pieces of the Python language and standard library the
      program relies on (text methods, list indexing, [sorted], [max],
      [int], integer true division, [math.ceil], [os.path]);
    - [generate_prompts_from_story]: the scene splitter;
    - [map_images_by_prompt_number]: the image-to-scene mapper;
    - [create_video_from_prompts]: duration allocation, segment planning
      and the render pipeline, written in a small state-and-exception
      monad whose state is the log of external actions.

    Text is modelled by [string]: a sequence of 8-bit characters, read as
    the code points 0..255 of a Python [str].  Python floats are Rocq's
    primitive binary64 floats. *)

From Stdlib Require Import List String Ascii ZArith Lia Bool Floats DecimalString.
From Stdlib Require Import Sorted Permutation.
Import ListNotations.

Local Open Scope list_scope.
Local Open Scope string_scope.

Set Implicit Arguments.

(* ================================================================== *)
(** * Python primitives *)
(* ================================================================== *)

Module Py.

(** ** Characters *)

Definition LF : ascii := ascii_of_nat 10.

(** [str.isspace] on the code points below 256: the ASCII controls
    9..13 and 28..31, the space, NEL (133) and the no-break space (160). *)
Definition isspace (c : ascii) : bool :=
  let n := nat_of_ascii c in
  (((9 <=? n) && (n <=? 13)) || ((28 <=? n) && (n <=? 32))
   || (n =? 133) || (n =? 160))%nat.

(** The class [\d] on the code points below 256: the digits 0 to 9. *)
Definition isdigit (c : ascii) : bool :=
  let n := nat_of_ascii c in ((48 <=? n) && (n <=? 57))%nat.

(** ** [str] methods *)

Definition is_empty (s : string) : bool :=
  match s with EmptyString => true | String _ _ => false end.

(** Truthiness of a [str]: non-empty. *)
Definition truthy (s : string) : bool := negb (is_empty s).

Fixpoint lstrip (s : string) : string :=
  match s with
  | EmptyString => EmptyString
  | String c r => if isspace c then lstrip r else s
  end.

Fixpoint rstrip (s : string) : string :=
  match s with
  | EmptyString => EmptyString
  | String c r =>
      let r' := rstrip r in
      if isspace c && is_empty r' then EmptyString else String c r'
  end.

(** [s.strip()] *)
Definition strip (s : string) : string := rstrip (lstrip s).

(** A text made of whitespace only (the empty text included). *)
Fixpoint blank (s : string) : bool :=
  match s with
  | EmptyString => true
  | String c r => isspace c && blank r
  end.

(** [sep.join(parts)] *)
Fixpoint join (sep : string) (parts : list string) : string :=
  match parts with
  | [] => EmptyString
  | [p] => p
  | p :: ps => p ++ sep ++ join sep ps
  end.

(** [s.replace(old, new)] for a one-character [old]. *)
Fixpoint replace_char (old : ascii) (new : string) (s : string) : string :=
  match s with
  | EmptyString => EmptyString
  | String c r =>
      if Ascii.eqb c old then new ++ replace_char old new r
      else String c (replace_char old new r)
  end.

(** [s[:n]] for [n >= 0]. *)
Fixpoint take (n : nat) (s : string) : string :=
  match n, s with
  | S n', String c r => String c (take n' r)
  | _, _ => EmptyString
  end.

(** [s[n:]] for [n >= 0]. *)
Fixpoint drop (n : nat) (s : string) : string :=
  match n, s with
  | S n', String _ r => drop n' r
  | _, _ => s
  end.

(** [s.startswith(p)] *)
Definition startswith (p s : string) : bool := String.prefix p s.

(** [sub in s], by scanning the start positions left to right. *)
Fixpoint contains (sub s : string) : bool :=
  startswith sub s
  || match s with
     | EmptyString => false
     | String _ r => contains sub r
     end.

(** [s.replace(old, new)] for a non-empty [old]: leftmost
    non-overlapping occurrences.  [fuel] bounds the number of steps
    and [length s] of them suffice. *)
Fixpoint replace_fuel (fuel : nat) (old new s : string) : string :=
  match fuel with
  | O => s
  | S fuel' =>
      match s with
      | EmptyString => EmptyString
      | String c r =>
          if startswith old s
          then new ++ replace_fuel fuel' old new (drop (String.length old) s)
          else String c (replace_fuel fuel' old new r)
      end
  end.

Definition replace (old new s : string) : string :=
  replace_fuel (String.length s) old new s.

(** [str(n)] of an [int]. *)
Definition str_int (n : Z) : string := NilZero.string_of_int (Z.to_int n).

(** ** Lists *)

(** [l[i]]: a negative index counts from the end, an index out of
    range raises [IndexError] ([None]). *)
Definition getitem {A} (l : list A) (i : Z) : option A :=
  let n := Z.of_nat (List.length l) in
  if (0 <=? i)%Z then nth_error l (Z.to_nat i)
  else if (- n <=? i)%Z then nth_error l (Z.to_nat (n + i))
  else None.

(** [enumerate(l, start)] *)
Fixpoint enumerate {A} (start : nat) (l : list A) : list (nat * A) :=
  match l with
  | [] => []
  | x :: xs => (start, x) :: enumerate (S start) xs
  end.

(** [sorted] on integers (a stable insertion sort; on distinct keys
    every sort gives the same list). *)
Fixpoint insert_sorted (k : Z) (l : list Z) : list Z :=
  match l with
  | [] => [k]
  | x :: xs => if (k <? x)%Z then k :: l else x :: insert_sorted k xs
  end.

Definition sorted (l : list Z) : list Z :=
  fold_left (fun acc k => insert_sorted k acc) l [].

(** ** Exceptions *)

Inductive PyExn : Type :=
| Exception (msg : string)              (* raise Exception(msg) *)
| IndexError
| OverflowError
| ValueError
| KeyError
| OSError
| CalledProcessError (cmd : list string).

(** A computation that returns or raises. *)
Definition result (A : Type) : Type := (PyExn + A)%type.

Definition bind_result {A B} (r : result A) (k : A -> result B) : result B :=
  match r with
  | inl e => inl e
  | inr a => k a
  end.

(** ** Numbers *)

(** The number a run of ASCII digits denotes. *)
Definition digit_value (c : ascii) : Z := Z.of_nat (nat_of_ascii c) - 48.

Fixpoint int_of_digits (acc : Z) (s : string) : Z :=
  match s with
  | EmptyString => acc
  | String c r => int_of_digits (10 * acc + digit_value c) r
  end.

(** [sys.get_int_max_str_digits()]: the interpreter's limit on the
    length of a decimal text converted to an [int], at its default. *)
Definition int_max_str_digits : Z := 4300.

(** [int(s)] on a non-empty run of ASCII digits: a run of more digits
    than the limit, leading zeros counted, raises [ValueError]. *)
Definition int (s : string) : result Z :=
  if (int_max_str_digits <? Z.of_nat (String.length s))%Z
  then inl ValueError
  else inr (int_of_digits 0 s).

(** [float(n)] of an [int], as the float division and multiplication
    operators convert an [int] operand: the nearest binary64 value. *)
Definition float_of_int (n : Z) : float :=
  SF2Prim (binary_normalize prec emax n 0 false).

(** A float is also handled in its specification form, the triple
    (sign, mantissa, exponent) of [SpecFloat]; [Prim2SF] gives the form
    of a primitive float. *)

(** [n / 2] on an [int]: true division gives the nearest binary64 value
    of the exact quotient [n * 2^-1] and raises [OverflowError] when that
    lies beyond the float range. *)
Definition int_truediv_2 (n : Z) : result spec_float :=
  match binary_normalize prec emax n (-1) false with
  | S754_infinity _ => inl OverflowError
  | q => inr q
  end.

(** The integer next to a finite float: toward zero ([toward_zero]),
    else upward ([up]) or downward.  Infinities raise [OverflowError],
    NaN raises [ValueError], as [int] and [math.ceil] do. *)
Definition round_to_int (up toward_zero : bool) (x : spec_float) : result Z :=
  match x with
  | S754_zero _ => inr 0%Z
  | S754_infinity _ => inl OverflowError
  | S754_nan => inl ValueError
  | S754_finite neg m e =>
      let v := if neg then Z.neg m else Z.pos m in
      if (0 <=? e)%Z then inr (v * 2 ^ e)%Z
      else
        let d := (2 ^ (- e))%Z in
        let round_up := if toward_zero then neg else up in
        inr (if round_up then - ((- v) / d) else v / d)%Z
  end.

(** [math.ceil(x)] *)
Definition ceil (x : spec_float) : result Z := round_to_int true false x.

(** [int(x)] of a float: truncation toward zero. *)
Definition int_of_float (x : float) : result Z :=
  round_to_int false true (Prim2SF x).

(** [max(a, b)]: [b] replaces [a] only when [b > a]. *)
Definition max (a b : float) : float := if PrimFloat.ltb a b then b else a.

(** ** [os.path] (POSIX flavour) *)

(** [os.sep] *)
Definition sep : ascii := "/".

(** The text after the last occurrence of [sep], if [sep] occurs. *)
Fixpoint after_last (sep : ascii) (s : string) : option string :=
  match s with
  | EmptyString => None
  | String c r =>
      match after_last sep r with
      | Some t => Some t
      | None => if Ascii.eqb c sep then Some r else None
      end
  end.

(** [os.path.basename(p)] *)
Definition basename (p : string) : string :=
  match after_last "/" p with
  | Some t => t
  | None => p
  end.

Fixpoint endswith_char (c : ascii) (s : string) : bool :=
  match s with
  | EmptyString => false
  | String x EmptyString => Ascii.eqb x c
  | String _ r => endswith_char c r
  end.

(** [os.path.join(a, b)] *)
Definition path_join (a b : string) : string :=
  if startswith "/" b then b
  else if is_empty a || endswith_char "/" a then a ++ b
  else a ++ "/" ++ b.

End Py.

Notation "x <-? r ;; k" := (Py.bind_result r (fun x => k))
  (at level 100, r at next level, right associativity).

(* ================================================================== *)
(** * The scene splitter *)
(* ================================================================== *)

Record AnalysisResult : Type := {
  scene_texts : list string;
  copyable_prompts_text : string;
  full_story_for_voice : string;
  scene_count : nat
}.

(** The delimiters of the pattern [[\n\.]+]. *)
Definition is_break (c : ascii) : bool :=
  Ascii.eqb c Py.LF || Ascii.eqb c ".".

(** [re.split(r'[\n\.]+', s)]: the pieces between the maximal runs of
    delimiters; a delimiter at either end leaves an empty piece there. *)
Fixpoint re_split (s : string) : list string :=
  match s with
  | EmptyString => [EmptyString]
  | String c r =>
      let rest := re_split r in
      if is_break c then
        match r with
        | String c' _ => if is_break c' then rest else EmptyString :: rest
        | EmptyString => EmptyString :: rest
        end
      else
        match rest with
        | p :: ps => String c p :: ps
        | [] => [String c EmptyString]
        end
  end.

(** The condition of the comprehension: [s.strip() and len(s) > 5]. *)
Definition keeps (s : string) : bool :=
  Py.truthy (Py.strip s) && (5 <? String.length s)%nat.

(** [[s.strip() for s in re.split(...) if s.strip() and len(s) > 5]] *)
Definition split_scenes (story_text : string) : list string :=
  map Py.strip (filter keeps (re_split story_text)).

(** The scenes after the fallback line. *)
Definition scenes_of (story_text : string) : list string :=
  match split_scenes story_text with
  | [] => if Py.truthy (Py.strip story_text) then [story_text] else []
  | scenes => scenes
  end.

Definition prompt_text (scene_text : string) : string :=
  "A cinematic 3D render of: " ++ Py.take 150 scene_text.

Definition generate_prompts_from_story (story_text : string) : AnalysisResult :=
  let scenes := scenes_of story_text in
  let copyable_lines :=
    map (fun '(i, scene_text) =>
           Py.str_int (Z.of_nat i) ++ ". " ++ prompt_text scene_text)
        (Py.enumerate 1 scenes) in
  let full_voice_text_parts := scenes in
  {| scene_texts := scenes;
     copyable_prompts_text := Py.join (String Py.LF EmptyString) copyable_lines;
     full_story_for_voice := Py.join ". " full_voice_text_parts;
     scene_count := List.length scenes |}.

(* ================================================================== *)
(** * The image-to-scene mapper *)
(* ================================================================== *)

(** A [dict] from scene numbers to image paths, in insertion order; the
    keys of a [dict] are distinct. *)
Definition PyDict : Type := list (Z * list string).

Definition keys (m : PyDict) : list Z := map fst m.

Definition wf_dict (m : PyDict) : Prop := NoDup (keys m).

(** [m[k]] for a key of [m]. *)
Fixpoint lookup (m : PyDict) (k : Z) : option (list string) :=
  match m with
  | [] => None
  | (k', v) :: r => if (k =? k')%Z then Some v else lookup r k
  end.

(** [prompt_map[k].append(v)] on a [defaultdict(list)]: a missing key is
    first inserted, at the end, with an empty list. *)
Fixpoint append_at (m : PyDict) (k : Z) (v : string) : PyDict :=
  match m with
  | [] => [(k, [v])]
  | (k', l) :: r =>
      if (k =? k')%Z then (k', (l ++ [v])%list) :: r else (k', l) :: append_at r k v
  end.

(** [dict(sorted(m.items()))]: the items by ascending key. *)
Fixpoint insert_item (kv : Z * list string) (m : PyDict) : PyDict :=
  match m with
  | [] => [kv]
  | x :: xs => if (fst kv <? fst x)%Z then kv :: m else x :: insert_item kv xs
  end.

Definition sorted_items (m : PyDict) : PyDict :=
  fold_left (fun acc kv => insert_item kv acc) m [].

(** Group 1 of [^(\d+)] matched at the start of [s]: the leading run of
    digits, empty when there is no match. *)
Fixpoint leading_digits (s : string) : string :=
  match s with
  | EmptyString => EmptyString
  | String c r => if Py.isdigit c then String c (leading_digits r) else EmptyString
  end.

(** [math.ceil(file_number / 2)] *)
Definition prompt_number_of (file_number : Z) : Py.result Z :=
  q <-? Py.int_truediv_2 file_number ;; Py.ceil q.

(** One turn of the loop over [image_files]. *)
Definition map_step (prompt_map : PyDict) (img_path : string) : Py.result PyDict :=
  let filename := Py.basename img_path in
  let digits := leading_digits filename in
  if Py.truthy digits then
    file_number <-? Py.int digits ;;
    prompt_number <-? prompt_number_of file_number ;;
    inr (append_at prompt_map prompt_number img_path)
  else inr prompt_map.

Fixpoint map_loop (prompt_map : PyDict) (image_files : list string) : Py.result PyDict :=
  match image_files with
  | [] => inr prompt_map
  | img_path :: rest =>
      prompt_map' <-? map_step prompt_map img_path ;; map_loop prompt_map' rest
  end.

Definition map_images_by_prompt_number (image_files : list string) : Py.result PyDict :=
  prompt_map <-? map_loop [] image_files ;;
  inr (sorted_items prompt_map).

(* ================================================================== *)
(** * Notions used in the statements *)
(* ================================================================== *)

(** The number at the start of a file's name, when there is one: the
    number its leading digits denote, however many they are. *)
Definition file_number_of (img_path : string) : option Z :=
  let digits := leading_digits (Py.basename img_path) in
  if Py.truthy digits then Some (Py.int_of_digits 0 digits) else None.

(** The leading digits of a file's name are few enough for [int]. *)
Definition int_accepts (img_path : string) : bool :=
  (Z.of_nat (String.length (leading_digits (Py.basename img_path)))
   <=? Py.int_max_str_digits)%Z.

(** The file [img_path] is put under scene [k]. *)
Definition goes_to (k : Z) (img_path : string) : bool :=
  match file_number_of img_path with
  | Some n =>
      match prompt_number_of n with
      | inr k' => (k' =? k)%Z
      | inl _ => false
      end
  | None => false
  end.

(** The scene of file number [n] in exact arithmetic: the least integer
    that is at least [n / 2]. *)
Definition ceil_half (n : Z) : Z := (- ((- n) / 2))%Z.

(** Escaping for the overlay syntax, character by character, as the
    specification words it: a single quote becomes ['\''], a colon
    becomes [\:], any other character stays. *)
Definition escape_char (c : ascii) : string :=
  if Ascii.eqb c "'" then "'\''"
  else if Ascii.eqb c ":" then "\:"
  else String c EmptyString.

Fixpoint escaped (s : string) : string :=
  match s with
  | EmptyString => EmptyString
  | String c r => escape_char c ++ escaped r
  end.

(** [sum] of a list of floats, from the left. *)
Definition fsum (l : list float) : float := fold_left PrimFloat.add l 0%float.

(** The images of scene [p], and all images in the order of the loops:
    by ascending scene number, and within a scene as they are listed. *)
Definition images_of (m : PyDict) (p : Z) : list string :=
  match lookup m p with
  | Some images => images
  | None => []
  end.

Definition images_in_order (m : PyDict) : list string :=
  flat_map (images_of m) (Py.sorted (keys m)).

(* ================================================================== *)
(** * The host: module constants, library functions, external world *)
(* ================================================================== *)

(** What the program does to the world outside, with the outcome it
    observed.  The [print] calls are left out. *)
Inductive Event : Type :=
| Probe (cmd : list string) (out : option float)
    (* the ffprobe call of [get_audio_duration]: [Some d] when it
       succeeded and its output parsed as the float [d] *)
| Run (cmd : list string) (ok : bool)
    (* [subprocess.run(cmd, check=True)]: [ok = false] when it raised *)
| WriteFile (path content : string) (ok : bool)
| Remove (path : string) (ok : bool).

(** The module-level constants fixed at import time, the library
    functions whose algorithms are not part of this repository, and the
    outcome of every external action, which may depend on all that
    happened before. *)
Record Host : Type := {
  FFMPEG_PATH : string;
  FONT_FILE : string;
  OUTPUT_DIR : string;
  wrap : string -> nat -> list string;      (* textwrap.wrap(text, width) *)
  str_float : float -> string;              (* str(x) of a float *)
  abspath : string -> string;               (* os.path.abspath *)
  probe_out : list Event -> list string -> option float;
  run_ok : list Event -> list string -> bool;
  write_ok : list Event -> string -> string -> bool;
  remove_ok : list Event -> string -> bool
}.

(* ================================================================== *)
(** * The monad of the pipeline: exceptions over a log of events *)
(* ================================================================== *)

Definition M (A : Type) : Type := list Event -> Py.result A * list Event.

Definition ret {A} (a : A) : M A := fun log => (inr a, log).

Definition raise {A} (e : Py.PyExn) : M A := fun log => (inl e, log).

Definition bind {A B} (c : M A) (k : A -> M B) : M B :=
  fun log =>
    match c log with
    | (inl e, log') => (inl e, log')
    | (inr a, log') => k a log'
    end.

(** [try: c  except Exception as e: handler(e)] *)
Definition try_except {A} (c : M A) (handler : Py.PyExn -> M A) : M A :=
  fun log =>
    match c log with
    | (inl e, log') => handler e log'
    | (inr a, log') => (inr a, log')
    end.

(** A pure computation that may raise. *)
Definition lift {A} (r : Py.result A) : M A := fun log => (r, log).

Notation "x <- c ;; k" := (bind c (fun x => k))
  (at level 100, c at next level, right associativity).
Notation "c ;;; k" := (bind c (fun _ => k))
  (at level 100, right associativity).

Fixpoint for_each {A S} (body : S -> A -> M S) (l : list A) (s : S) : M S :=
  match l with
  | [] => ret s
  | x :: xs => s' <- body s x ;; for_each body xs s'
  end.

Section Pipeline.

Variable h : Host.

(** ** External actions *)

(** [subprocess.run(cmd, check=True, ...)] *)
Definition subprocess_run (cmd : list string) : M unit :=
  fun log =>
    let ok := run_ok h log cmd in
    (if ok then inr tt else inl (Py.CalledProcessError cmd),
     (log ++ [Run cmd ok])%list).

(** [with open(path, 'w') as f: f.write(...)], as one action. *)
Definition write_file (path content : string) : M unit :=
  fun log =>
    let ok := write_ok h log path content in
    (if ok then inr tt else inl Py.OSError,
     (log ++ [WriteFile path content ok])%list).

(** [os.remove(path)] *)
Definition os_remove (path : string) : M unit :=
  fun log =>
    let ok := remove_ok h log path in
    (if ok then inr tt else inl Py.OSError,
     (log ++ [Remove path ok])%list).

(** ** [get_audio_duration] *)

Definition ffprobe_path : string :=
  let p := Py.replace "ffmpeg.exe" "ffprobe.exe" (FFMPEG_PATH h) in
  if negb (Py.contains "ffprobe" p) then "ffprobe" else p.

Definition ffprobe_cmd (file_path : string) : list string :=
  [ffprobe_path; "-v"; "error"; "-show_entries"; "format=duration";
   "-of"; "default=noprint_wrappers=1:nokey=1"; file_path].

Definition get_audio_duration (file_path : string) : M float :=
  fun log =>
    let cmd := ffprobe_cmd file_path in
    let out := probe_out h log cmd in
    (inr match out with Some d => d | None => 0%float end,
     (log ++ [Probe cmd out])%list).

(** ** [create_video_from_prompts]: the timing basis *)

(** [if target_duration_minutes: ... else: ...]: an [Optional[float]]
    is true when it is neither [None] nor equal to zero. *)
Definition total_duration (target_duration_minutes : option float)
           (voice_file_path : string) : M float :=
  match target_duration_minutes with
  | Some t =>
      if PrimFloat.eqb t 0 then get_audio_duration voice_file_path
      else ret (t * Py.float_of_int 60)%float
  | None => get_audio_duration voice_file_path
  end.

(** ** The body of the loop over the scenes, up to the inner loop *)

Definition duration_per_image (duration_per_prompt : float)
           (num_images_in_prompt : nat) : float :=
  Py.max 0.5
    (duration_per_prompt / Py.float_of_int (Z.of_nat num_images_in_prompt))%float.

(** The caption preparation: the guard and the indexing. *)
Definition current_scene_text (prompt_num : Z)
           (scene_texts_for_caption : list string) : Py.result string :=
  if (prompt_num - 1 <? Z.of_nat (List.length scene_texts_for_caption))%Z then
    match Py.getitem scene_texts_for_caption (prompt_num - 1) with
    | Some t => inr t
    | None => inl Py.IndexError
    end
  else inr EmptyString.

Definition NL : string := String Py.LF EmptyString.

Definition caption_text_of (scene_text : string) : string :=
  let wrapped_text := Py.join NL (wrap h scene_text 40) in
  Py.replace_char ":" "\:" (Py.replace_char "'" "'\''" wrapped_text).

(** ** The body of the loop over the images of a scene *)

Definition fps : Z := 30.

(** [(i * num_images_in_prompt + j) % 3] *)
Definition effect_cycle (i num_images_in_prompt j : nat) : nat :=
  (i * num_images_in_prompt + j) mod 3.

Definition zoom_dir (effect : nat) (zoom_duration_frames : Z) : string :=
  match effect with
  | 0 => "min(1.5,zoom+0.0025)"
  | 1 => "max(1.0, 1.4 - 0.4*on/" ++ Py.str_int zoom_duration_frames ++ ")"
  | _ => "1.1"
  end.

Definition pan_x (effect : nat) (zoom_duration_frames : Z) : string :=
  match effect with
  | 0 => "iw/2-(iw/zoom/2)"
  | 1 => "iw/2-(iw/zoom/2)"
  | _ => "if(eq(on,0), 0, x+((iw/zoom)/" ++ Py.str_int zoom_duration_frames
         ++ "/2))"
  end.

Definition pan_y (effect : nat) : string :=
  match effect with
  | 0 => "ih/2-(ih/zoom/2)"
  | 1 => "ih/2-(ih/zoom/2)"
  | _ => "y"
  end.

Definition vf_complex (effect : nat) (zoom_duration_frames : Z) : string :=
  "scale=1920:1080:force_original_aspect_ratio=decrease,"
  ++ "pad=1920:1080:(ow-iw)/2:(oh-ih)/2:color=black,"
  ++ "zoompan=z='" ++ zoom_dir effect zoom_duration_frames
  ++ "':x='" ++ pan_x effect zoom_duration_frames
  ++ "':y='" ++ pan_y effect ++ "':"
  ++ "d=" ++ Py.str_int zoom_duration_frames
  ++ ":s=1920x1080:fps=" ++ Py.str_int fps.

Definition vf_text_overlay (caption_text : string) : string :=
  let font_path_for_ffmpeg := Py.replace_char ":" "\:" (FONT_FILE h) in
  "drawtext=fontfile='" ++ font_path_for_ffmpeg
  ++ "':text='" ++ caption_text ++ "':"
  ++ "fontcolor=white:fontsize=60:x=(w-text_w)/2:y=h-th-50:"
  ++ "box=1:boxcolor=black@0.5:boxborderw=10".

Definition segment_path_of (job_id : string) (i j : nat) : string :=
  Py.path_join (OUTPUT_DIR h)
    (job_id ++ "_seg_" ++ Py.str_int (Z.of_nat i) ++ "_"
     ++ Py.str_int (Z.of_nat j) ++ ".mp4").

(** The local variables of one turn of the inner loop when it reaches
    its [try]. *)
Record Segment : Type := {
  seg_scene : nat;            (* i, the position of the scene *)
  seg_index : nat;            (* j, the position of the image in the scene *)
  seg_image : string;         (* img_path *)
  seg_duration : float;       (* duration_per_image *)
  seg_frames : Z;             (* zoom_duration_frames *)
  seg_effect : nat;           (* effect_cycle *)
  seg_caption : string;       (* caption_text *)
  seg_path : string;          (* segment_path *)
  seg_cmd : list string       (* cmd *)
}.

Definition render_cmd (img_path : string) (duration : float)
           (effect : nat) (zoom_duration_frames : Z)
           (caption_text segment_path : string) : list string :=
  [FFMPEG_PATH h; "-y";
   "-loop"; "1"; "-i"; img_path;
   "-c:v"; "libx264";
   "-pix_fmt"; "yuv420p";
   "-t"; str_float h duration;
   "-vf"; vf_complex effect zoom_duration_frames ++ ","
          ++ vf_text_overlay caption_text;
   "-r"; Py.str_int fps;
   segment_path].

Definition segment (job_id : string) (i num_images_in_prompt : nat)
           (duration : float) (caption_text : string)
           (j : nat) (img_path : string) : Py.result Segment :=
  let segment_path := segment_path_of job_id i j in
  frames <-? Py.int_of_float (duration * Py.float_of_int fps)%float ;;
  let zoom_duration_frames := (frames + 1)%Z in
  let effect := effect_cycle i num_images_in_prompt j in
  inr {| seg_scene := i; seg_index := j; seg_image := img_path;
         seg_duration := duration; seg_frames := zoom_duration_frames;
         seg_effect := effect; seg_caption := caption_text;
         seg_path := segment_path;
         seg_cmd := render_cmd img_path duration effect
                      zoom_duration_frames caption_text segment_path |}.

(** [video_segments] and [segment_file_paths]. *)
Definition Acc : Type := (list string * list string)%type.

(** [os.path.abspath(segment_path).replace(os.sep, '/')] *)
Definition manifest_path (segment_path : string) : string :=
  Py.replace_char Py.sep "/" (abspath h segment_path).

(** The [try] of the inner loop: a failed render leaves both lists as
    they were. *)
Definition render (acc : Acc) (seg : Segment) : M Acc :=
  try_except
    (subprocess_run (seg_cmd seg) ;;;
     ret ((fst acc ++ [seg_path seg])%list,
          (snd acc ++ [manifest_path (seg_path seg)])%list))
    (fun _ => ret acc).

Definition image_step (job_id : string) (i num_images_in_prompt : nat)
           (duration : float) (caption_text : string)
           (acc : Acc) (jimg : nat * string) : M Acc :=
  seg <- lift (segment job_id i num_images_in_prompt duration caption_text
                 (fst jimg) (snd jimg)) ;;
  render acc seg.

(** One turn of the loop over [enumerate(sorted(prompt_image_map.keys()))].
    A scene without images is skipped by [if not images: continue]; the
    test on [num_images_in_prompt == 0] that follows never fires. *)
Definition scene_step (prompt_image_map : PyDict) (job_id : string)
           (duration_per_prompt : float)
           (scene_texts_for_caption : list string)
           (acc : Acc) (ip : nat * Z) : M Acc :=
  let i := fst ip in
  let prompt_num := snd ip in
  match lookup prompt_image_map prompt_num with
  | None => raise Py.KeyError
  | Some [] => ret acc                                     (* continue *)
  | Some images =>
      let num_images_in_prompt := List.length images in
      let duration := duration_per_image duration_per_prompt
                        num_images_in_prompt in
      scene_text <- lift (current_scene_text prompt_num
                            scene_texts_for_caption) ;;
      let caption_text := caption_text_of scene_text in
      for_each (image_step job_id i num_images_in_prompt duration
                  caption_text)
               (Py.enumerate 0 images) acc
  end.

(** ** After the loops: manifest, concatenation, audio, clean-up *)

Definition manifest_text (segment_file_paths : list string) : string :=
  String.concat EmptyString
    (map (fun path => "file '" ++ path ++ "'" ++ NL) segment_file_paths).

Definition segment_list_file_of (job_id : string) : string :=
  Py.path_join (OUTPUT_DIR h) ("segments_" ++ job_id ++ ".txt").

Definition concatenated_video_path_of (job_id : string) : string :=
  Py.path_join (OUTPUT_DIR h) ("video_no_audio_" ++ job_id ++ ".mp4").

Definition final_output_path_of (job_id : string) : string :=
  Py.path_join (OUTPUT_DIR h) ("final_video_" ++ job_id ++ ".mp4").

Definition cmd_concat (job_id : string) : list string :=
  [FFMPEG_PATH h; "-y";
   "-f"; "concat";
   "-safe"; "0";
   "-i"; segment_list_file_of job_id;
   "-c"; "copy";
   concatenated_video_path_of job_id].

Definition cmd_add_audio (job_id voice_file_path : string) : list string :=
  [FFMPEG_PATH h; "-y";
   "-i"; concatenated_video_path_of job_id;
   "-i"; voice_file_path;
   "-c:v"; "copy";
   "-c:a"; "aac";
   "-shortest";
   final_output_path_of job_id].

(** The text of the exception raised when the manifest cannot be
    written; the source appends the text of the cause. *)
Definition segment_list_error : string := "Error writing segment list file: ".

Definition write_segment_list (job_id : string)
           (segment_file_paths : list string) : M unit :=
  try_except
    (write_file (segment_list_file_of job_id)
                (manifest_text segment_file_paths))
    (fun _ => raise (Py.Exception segment_list_error)).

Definition cleanup (job_id : string) (video_segments : list string) : M unit :=
  try_except
    (os_remove (segment_list_file_of job_id) ;;;
     os_remove (concatenated_video_path_of job_id) ;;;
     for_each (fun _ seg => os_remove seg) video_segments tt)
    (fun _ => ret tt).

Definition no_duration_error : string :=
  "Audio duration is 0. Upload a voice file or set a Target Duration.".

Definition no_prompts_error : string :=
  "No prompts with images found (Check image filenames).".

(** The three steps that follow the loops, and the clean-up. *)
Definition assemble (job_id voice_file_path : string) (acc : Acc) : M string :=
  let video_segments := fst acc in
  let segment_file_paths := snd acc in
  write_segment_list job_id segment_file_paths ;;;
  subprocess_run (cmd_concat job_id) ;;;
  subprocess_run (cmd_add_audio job_id voice_file_path) ;;;
  cleanup job_id video_segments ;;;
  ret (final_output_path_of job_id).

(** The two nested loops. *)
Definition render_segments (prompt_image_map : PyDict) (job_id : string)
           (duration_per_prompt : float)
           (scene_texts_for_caption : list string) : M Acc :=
  for_each (scene_step prompt_image_map job_id duration_per_prompt
              scene_texts_for_caption)
           (Py.enumerate 0 (Py.sorted (keys prompt_image_map)))
           ([], []).

(** ** [create_video_from_prompts] *)

Definition create_video_from_prompts
           (prompt_image_map : PyDict)
           (voice_file_path job_id : string)
           (target_duration_minutes : option float)
           (scene_texts_for_caption : list string) : M string :=
  total_duration_sec <- total_duration target_duration_minutes
                          voice_file_path ;;
  if PrimFloat.eqb total_duration_sec 0 then
    raise (Py.Exception no_duration_error)
  else
    let num_prompts := List.length prompt_image_map in
    if (num_prompts =? 0)%nat then raise (Py.Exception no_prompts_error)
    else
      let duration_per_prompt :=
        (total_duration_sec / Py.float_of_int (Z.of_nat num_prompts))%float in
      acc <- render_segments prompt_image_map job_id duration_per_prompt
               scene_texts_for_caption ;;
      assemble job_id voice_file_path acc.

(** ** The segments the loops reach

    The loops interleave pure computation and rendering.  Their pure
    part alone gives the segments reached, in order, and the exception
    that ended the loops early, if one did. *)

Definition Reached : Type := (list Segment * option Py.PyExn)%type.

Fixpoint image_segments (job_id : string) (i num_images_in_prompt : nat)
         (duration : float) (caption_text : string)
         (jimgs : list (nat * string)) : Reached :=
  match jimgs with
  | [] => ([], None)
  | jimg :: rest =>
      match segment job_id i num_images_in_prompt duration caption_text
              (fst jimg) (snd jimg) with
      | inl e => ([], Some e)
      | inr seg =>
          let r := image_segments job_id i num_images_in_prompt duration
                     caption_text rest in
          (seg :: fst r, snd r)
      end
  end.

Definition scene_segments (prompt_image_map : PyDict) (job_id : string)
           (duration_per_prompt : float)
           (scene_texts_for_caption : list string) (ip : nat * Z) : Reached :=
  match lookup prompt_image_map (snd ip) with
  | None => ([], Some Py.KeyError)
  | Some [] => ([], None)
  | Some images =>
      let k := List.length images in
      match current_scene_text (snd ip) scene_texts_for_caption with
      | inl e => ([], Some e)
      | inr scene_text =>
          image_segments job_id (fst ip) k
            (duration_per_image duration_per_prompt k)
            (caption_text_of scene_text) (Py.enumerate 0 images)
      end
  end.

Fixpoint scenes_segments (prompt_image_map : PyDict) (job_id : string)
         (duration_per_prompt : float)
         (scene_texts_for_caption : list string)
         (ips : list (nat * Z)) : Reached :=
  match ips with
  | [] => ([], None)
  | ip :: rest =>
      match scene_segments prompt_image_map job_id duration_per_prompt
              scene_texts_for_caption ip with
      | (segs, Some e) => (segs, Some e)
      | (segs, None) =>
          let r := scenes_segments prompt_image_map job_id
                     duration_per_prompt scene_texts_for_caption rest in
          ((segs ++ fst r)%list, snd r)
      end
  end.

(** The share of one scene: [total_duration_sec / num_prompts]. *)
Definition duration_per_prompt_of (total_duration_sec : float)
           (prompt_image_map : PyDict) : float :=
  (total_duration_sec
   / Py.float_of_int (Z.of_nat (List.length prompt_image_map)))%float.

Definition planned (prompt_image_map : PyDict) (job_id : string)
           (total_duration_sec : float)
           (scene_texts_for_caption : list string) : Reached :=
  scenes_segments prompt_image_map job_id
    (duration_per_prompt_of total_duration_sec prompt_image_map)
    scene_texts_for_caption
    (Py.enumerate 0 (Py.sorted (keys prompt_image_map))).

(** The outcomes of rendering [segs] one after the other from [log]. *)
Fixpoint outcomes (log : list Event) (segs : list Segment) : list bool :=
  match segs with
  | [] => []
  | seg :: rest =>
      let ok := run_ok h log (seg_cmd seg) in
      ok :: outcomes (log ++ [Run (seg_cmd seg) ok])%list rest
  end.

Definition render_events (segs : list Segment) (oks : list bool) : list Event :=
  map (fun so => Run (seg_cmd (fst so)) (snd so)) (combine segs oks).

(** The segments whose render succeeded, in order. *)
Definition produced (segs : list Segment) (oks : list bool) : list Segment :=
  map fst (filter snd (combine segs oks)).

Definition failures (oks : list bool) : nat :=
  List.length (filter negb oks).

(** The lines of the manifest for the segments [segs]. *)
Definition manifest_entries (segs : list Segment) : list string :=
  map (fun seg => manifest_path (seg_path seg)) segs.

(** [acc] after the segments [segs] were produced. *)
Definition extend (acc : Acc) (segs : list Segment) : Acc :=
  ((fst acc ++ map seg_path segs)%list,
   (snd acc ++ manifest_entries segs)%list).

(** What a finished loop leaves: its result and the events it added. *)
Definition loop_result (r : Reached) (acc : Acc) (log : list Event)
  : Py.result Acc * list Event :=
  let oks := outcomes log (fst r) in
  (match snd r with
   | Some e => inl e
   | None => inr (extend acc (produced (fst r) oks))
   end,
   (log ++ render_events (fst r) oks)%list).

(** Where a segment comes from: scene number [p] at position
    [seg_scene] of the sorted keys, its images, the text under its
    caption, and the turn of the inner loop that built it. *)
Inductive planned_from (prompt_image_map : PyDict) (job_id : string)
          (duration_per_prompt : float)
          (scene_texts_for_caption : list string) (seg : Segment) : Prop :=
| PlannedFrom (p : Z) (images : list string) (scene_text : string) :
    nth_error (Py.sorted (keys prompt_image_map)) (seg_scene seg) = Some p ->
    lookup prompt_image_map p = Some images ->
    nth_error images (seg_index seg) = Some (seg_image seg) ->
    current_scene_text p scene_texts_for_caption = inr scene_text ->
    segment job_id (seg_scene seg) (List.length images)
      (duration_per_image duration_per_prompt (List.length images))
      (caption_text_of scene_text) (seg_index seg) (seg_image seg) = inr seg ->
    planned_from prompt_image_map job_id duration_per_prompt
      scene_texts_for_caption seg.

(** The events of [get_audio_duration]. *)
Definition is_probe (e : Event) : Prop :=
  match e with
  | Probe _ _ => True
  | _ => False
  end.

(** The events of the clean-up. *)
Definition is_remove (e : Event) : Prop :=
  match e with
  | Remove _ _ => True
  | _ => False
  end.

(** The two failures of the precondition checks. *)
Definition precondition_failure (e : Py.PyExn) : Prop :=
  e = Py.Exception no_duration_error \/ e = Py.Exception no_prompts_error.

(** What follows the loops, step by step, from the log [log] and the
    lists [acc]: the manifest, then the concatenation, then the audio,
    each run only when the step before succeeded. *)
Definition assemble_result (job_id voice_file_path : string) (acc : Acc)
           (log : list Event) (w c a : bool) (cleanup_events : list Event)
  : Py.result string * list Event :=
  let written :=
    WriteFile (segment_list_file_of job_id) (manifest_text (snd acc)) w in
  let concatenated := Run (cmd_concat job_id) c in
  let muxed := Run (cmd_add_audio job_id voice_file_path) a in
  if negb w then
    (inl (Py.Exception segment_list_error), (log ++ [written])%list)
  else if negb c then
    (inl (Py.CalledProcessError (cmd_concat job_id)),
     (log ++ [written; concatenated])%list)
  else if negb a then
    (inl (Py.CalledProcessError (cmd_add_audio job_id voice_file_path)),
     (log ++ [written; concatenated; muxed])%list)
  else
    (inr (final_output_path_of job_id),
     (log ++ [written; concatenated; muxed] ++ cleanup_events)%list).

End Pipeline.

(* ================================================================== *)
(** * A sample host, to run the pipeline on concrete jobs *)
(* ================================================================== *)

Module Sample.

(** [textwrap.wrap] on a text that fits the width, with single spaces
    between its words and none at its ends: the text is its only line;
    the empty text has no line at all. *)
Definition wrap_fits (text : string) (width : nat) : list string :=
  if Py.is_empty text then [] else [text].

(** [str] on the floats [n] and [n + 0.5] for an integer [n] of at most
    fifteen digits: the integer part, a point, and 0 or 5.  Other floats
    are outside this printer and give the empty text. *)
Definition str_float_halves (x : float) : string :=
  match Py.int_of_float (x * 2)%float with
  | inr n =>
      if PrimFloat.eqb (Py.float_of_int n) (x * 2)%float
         && (Z.abs n <? 2 * 10 ^ 15)%Z
      then (if PrimFloat.ltb x 0 then "-" else "")
           ++ Py.str_int (Z.abs n / 2)
           ++ (if Z.even n then ".0" else ".5")
      else EmptyString
  | inl _ => EmptyString
  end.

(** [os.path.abspath] on a path that is absolute and normalised. *)
Definition abspath_normal (path : string) : string := path.

Definition output_of (cmd : list string) : string := last cmd EmptyString.

(** A host in which every external action succeeds, except the
    commands whose output file is listed in [failing]; the audio probe
    reports [audio]. *)
Definition host (failing : list string) (audio : option float) : Host :=
  {| FFMPEG_PATH := "ffmpeg";
     FONT_FILE := "Arial.ttf";
     OUTPUT_DIR := "/app/output";
     wrap := wrap_fits;
     str_float := str_float_halves;
     abspath := abspath_normal;
     probe_out := fun _ _ => audio;
     run_ok := fun _ cmd => negb (existsb (String.eqb (output_of cmd)) failing);
     write_ok := fun _ _ _ => true;
     remove_ok := fun _ _ => true |}.

(** Six correctly numbered images and their scenes. *)
Definition six_images : list string :=
  ["1_a.png"; "2_a.png"; "3_a.png"; "4_a.png"; "5_a.png"; "6_a.png"].

Definition three_scenes : PyDict :=
  [(1, ["1_a.png"; "2_a.png"]); (2, ["3_a.png"; "4_a.png"]);
   (3, ["5_a.png"; "6_a.png"])]%Z.

Definition captions : list string := ["A hero rises"; "He falls"; "He wins"].

(** Three scenes of one image each. *)
Definition one_image_scenes : PyDict :=
  [(1, ["1_a.png"]); (2, ["3_a.png"]); (3, ["5_a.png"])]%Z.

(** A host in which the render of the third segment fails and the voice
    track lasts 30 seconds. *)
Definition third_render_fails : Host :=
  host ["/app/output/job_seg_1_0.mp4"] (Some 30%float).

(** One scene of three images. *)
Definition crowded_scene : PyDict :=
  [(1, ["1_a.png"; "2_a.png"; "2_b.png"])]%Z.

(** A first scene with one image, a second with two. *)
Definition uneven_scenes : PyDict :=
  [(1, ["1_a.png"]); (2, ["3_a.png"; "4_a.png"])]%Z.

(** A file name whose number 1 is written after 4300 zeros. *)
Definition padded_name : string :=
  string_of_list_ascii (List.repeat "0"%char 4300) ++ "1_x.png".

End Sample.


(* ================================================================== *)
(** * [generate_voice_fallback] *)
(* ================================================================== *)

(** The upload directory, fixed at import time, and the outcome of the
    speech synthesis: [tts_save_ok text path] holds when
    [gTTS(text=text, lang='en', slow=False)] and its [save(path)] raised
    nothing. *)
Record VoiceHost : Type := {
  UPLOADS_DIR : string;
  tts_save_ok : string -> string -> bool
}.

(** [os.path.join(UPLOADS_DIR, "audio", f"voice_{job_id}.mp3")] *)
Definition voice_output_path (vh : VoiceHost) (job_id : string) : string :=
  Py.path_join (Py.path_join (UPLOADS_DIR vh) "audio")
    ("voice_" ++ job_id ++ ".mp3").

(** The [try] returns the path, the [except] the empty text; the
    argument [gender] is not used. *)
Definition generate_voice_fallback (vh : VoiceHost)
           (text gender job_id : string) : string :=
  let output_path := voice_output_path vh job_id in
  if tts_save_ok vh text output_path then output_path else EmptyString.

(* ================================================================== *)
(** * Further notions used in the statements *)
(* ================================================================== *)

(** A text holds a delimiter of the split pattern. *)
Fixpoint has_break (s : string) : bool :=
  match s with
  | EmptyString => false
  | String c r => is_break c || has_break r
  end.

(** A text without its delimiters. *)
Fixpoint without_breaks (s : string) : string :=
  match s with
  | EmptyString => EmptyString
  | String c r => if is_break c then without_breaks r
                  else String c (without_breaks r)
  end.

(** Every colon of [s] comes right after a backslash; [escaped_before]
    tells whether the character before [s] is a backslash. *)
Fixpoint colons_escaped (escaped_before : bool) (s : string) : bool :=
  match s with
  | EmptyString => true
  | String c r =>
      (if Ascii.eqb c ":" then escaped_before else true)
      && colons_escaped (Ascii.eqb c "\") r
  end.

(** The events of the renders, the concatenation and the audio step. *)
Definition is_run (e : Event) : Prop :=
  match e with
  | Run _ _ => True
  | _ => False
  end.

(** The text made of the lines [ls], each ended by a newline. *)
Fixpoint text_of_lines (ls : list string) : string :=
  match ls with
  | [] => EmptyString
  | l :: r => l ++ String Py.LF (text_of_lines r)
  end.

(** The file has a leading number. *)
Definition numbered (img_path : string) : bool :=
  match file_number_of img_path with
  | Some _ => true
  | None => false
  end.

Unset Implicit Arguments.

(* ================================================================== *)
(** * Facts about the Python primitives *)
(* ================================================================== *)

Module PyFacts.
Import Py.

Lemma string_app_assoc (a b c : string) : (a ++ b) ++ c = a ++ (b ++ c).
Proof. induction a as [|x xs IH]; simpl; [|rewrite IH]; reflexivity. Qed.

Lemma string_app_nil_r (a : string) : a ++ EmptyString = a.
Proof. induction a as [|x xs IH]; simpl; [|rewrite IH]; reflexivity. Qed.

Lemma concat_empty_cons (x : string) (xs : list string) :
  String.concat EmptyString (x :: xs) = x ++ String.concat EmptyString xs.
Proof.
  destruct xs as [|y ys]; simpl; [|reflexivity].
  symmetry. apply string_app_nil_r.
Qed.

Lemma is_empty_true (s : string) : is_empty s = true <-> s = EmptyString.
Proof. destruct s; simpl; split; congruence. Qed.

Lemma lstrip_blank (s : string) : blank s = true -> lstrip s = EmptyString.
Proof.
  induction s as [|c r IH]; simpl; [reflexivity|].
  intros H. apply andb_prop in H as [Hc Hr]. rewrite Hc. auto.
Qed.

Lemma lstrip_nonblank (s : string) :
  blank s = false ->
  exists c r, lstrip s = String c r /\ isspace c = false.
Proof.
  induction s as [|c r IH]; simpl; [discriminate|].
  destruct (isspace c) eqn:Hc; simpl; intros H.
  - apply IH, H.
  - exists c, r. split; [reflexivity | exact Hc].
Qed.

Lemma rstrip_idempotent (s : string) : rstrip (rstrip s) = rstrip s.
Proof.
  induction s as [|c r IH]; simpl; [reflexivity|].
  destruct (isspace c && is_empty (rstrip r)) eqn:E; [reflexivity|].
  simpl. rewrite IH, E. reflexivity.
Qed.

Lemma strip_blank (s : string) : blank s = true -> strip s = EmptyString.
Proof. intros H. unfold strip. rewrite (lstrip_blank _ H). reflexivity. Qed.

Lemma strip_nonblank (s : string) :
  blank s = false ->
  exists c r, strip s = String c r /\ isspace c = false.
Proof.
  intros H. destruct (lstrip_nonblank _ H) as (c & r & E & Hc).
  unfold strip. rewrite E. simpl. rewrite Hc. simpl.
  exists c, (rstrip r). auto.
Qed.

Lemma strip_empty_iff (s : string) : strip s = EmptyString <-> blank s = true.
Proof.
  split; [| apply strip_blank].
  destruct (blank s) eqn:B; [reflexivity|].
  destruct (strip_nonblank _ B) as (c & r & E & _). congruence.
Qed.

Lemma truthy_strip (s : string) : truthy (strip s) = negb (blank s).
Proof.
  destruct (blank s) eqn:B.
  - rewrite (strip_blank _ B). reflexivity.
  - destruct (strip_nonblank _ B) as (c & r & E & _). rewrite E. reflexivity.
Qed.

Lemma strip_idempotent (s : string) : strip (strip s) = strip s.
Proof.
  destruct (blank s) eqn:B.
  - rewrite (strip_blank _ B). reflexivity.
  - unfold strip at 2 3.
    destruct (lstrip_nonblank _ B) as (c & r & E & Hc). rewrite E.
    simpl. rewrite Hc. simpl. unfold strip. simpl. rewrite Hc. simpl.
    rewrite Hc. simpl. rewrite rstrip_idempotent. reflexivity.
Qed.

End PyFacts.

(* ================================================================== *)
(** * The scene splitter: theorems *)
(* ================================================================== *)

Section Splitter.
Import Py PyFacts.

Lemma keeps_spec (s : string) :
  keeps s = true <-> blank s = false /\ (5 < String.length s)%nat.
Proof.
  unfold keeps. rewrite truthy_strip, andb_true_iff, negb_true_iff,
    Nat.ltb_lt. reflexivity.
Qed.

Lemma re_split_blank (s : string) :
  blank s = true -> Forall (fun f => blank f = true) (re_split s).
Proof.
  induction s as [|c r IH]; simpl; intros H.
  - repeat constructor.
  - apply andb_prop in H as [Hc Hr]. specialize (IH Hr).
    destruct (is_break c).
    + destruct r as [|c' r']; [constructor; auto|].
      destruct (is_break c'); [exact IH | constructor; auto].
    + destruct (re_split r) as [|p ps].
      * repeat constructor. simpl. rewrite Hc. reflexivity.
      * inversion IH as [|? ? Hp Hps]; subst. constructor; [|exact Hps].
        simpl. rewrite Hc, Hp. reflexivity.
Qed.

Lemma split_scenes_blank (s : string) :
  blank s = true -> split_scenes s = [].
Proof.
  intros H. unfold split_scenes.
  assert (F : filter keeps (re_split s) = []).
  { pose proof (re_split_blank _ H) as A.
    induction A as [|f fs Hf _ IH]; simpl; [reflexivity|].
    destruct (keeps f) eqn:K; [|exact IH].
    apply keeps_spec in K as [K _]. congruence. }
  rewrite F. reflexivity.
Qed.

(** The split step: a scene is the trimmed form of a fragment that is
    not blank and whose own length, before trimming, exceeds 5. *)
Lemma in_split_scenes (story sc : string) :
  In sc (split_scenes story) <->
  exists frag, In frag (re_split story) /\ blank frag = false
               /\ (5 < String.length frag)%nat /\ sc = strip frag.
Proof.
  unfold split_scenes. rewrite in_map_iff. split.
  - intros (frag & E & H). apply filter_In in H as [H K].
    apply keeps_spec in K as [B L]. exists frag. auto.
  - intros (frag & H & B & L & E). exists frag. split; [auto|].
    apply filter_In. split; [exact H|]. apply keeps_spec. auto.
Qed.

End Splitter.

Section SplitterClaims.
Import Py PyFacts.

(** C6, as the code has it.  Every scene of the split step is non-empty
    after trimming and is the trimmed form of a fragment whose length
    before trimming exceeds 5; the step drops exactly the fragments that
    are blank or whose untrimmed length is 5 or less.  The length that is
    tested is the fragment's own, not that of the trimmed scene. *)
Theorem split_scenes_filters_on_raw_length (story : string) :
  (forall sc, In sc (split_scenes story) ->
     strip sc <> EmptyString
     /\ exists frag, In frag (re_split story) /\ sc = strip frag
                     /\ (5 < String.length frag)%nat)
  /\ split_scenes story
     = map strip
         (filter (fun frag => negb (blank frag) && (5 <? String.length frag)%nat)
                 (re_split story)).
Proof.
  split.
  - intros sc H. apply in_split_scenes in H as (frag & Hin & B & L & E).
    split.
    + subst sc. rewrite strip_idempotent. intros E.
      apply strip_empty_iff in E. congruence.
    + exists frag. auto.
  - unfold split_scenes. f_equal. apply filter_ext. intros frag.
    unfold keeps. rewrite truthy_strip. reflexivity.
Qed.

Lemma split_scenes_filters_on_raw_length_witness :
  In "He falls" (split_scenes "A hero rises. He falls. He wins.")
  /\ strip "He falls" <> EmptyString
  /\ exists frag, In frag (re_split "A hero rises. He falls. He wins.")
                  /\ "He falls" = strip frag /\ (5 < String.length frag)%nat.
Proof.
  assert (H : In "He falls" (split_scenes "A hero rises. He falls. He wins."))
    by (vm_compute; auto).
  split; [exact H|].
  exact (proj1 (split_scenes_filters_on_raw_length
                  "A hero rises. He falls. He wins.") "He falls" H).
Defined.

(** C6 as stated fails: the fragment " I won" has 6 characters, so it is
    kept, and the scene it yields has only 5. *)
Lemma split_scenes_keeps_short_trimmed_scene :
  In " I won" (re_split "Wait. I won.")
  /\ String.length (strip " I won") = 5%nat
  /\ split_scenes "Wait. I won." = ["I won"]
  /\ String.length (strip "I won") = 5%nat.
Proof. vm_compute. auto. Qed.

(** C7, as the code has it.  A blank story has no scene; any other story
    has at least one; and when the split step keeps no fragment, the only
    scene is the story text as it was given, not trimmed. *)
Theorem scenes_of_blank_or_fallback (story : string) :
  (blank story = true ->
   scene_texts (generate_prompts_from_story story) = [])
  /\ (blank story = false ->
      scene_texts (generate_prompts_from_story story) <> []
      /\ (split_scenes story = [] ->
          scene_texts (generate_prompts_from_story story) = [story])).
Proof.
  simpl. unfold scenes_of. rewrite truthy_strip. split.
  - intros B. rewrite (split_scenes_blank _ B), B. reflexivity.
  - intros B. rewrite B. simpl. split.
    + destruct (split_scenes story); discriminate.
    + intros E. rewrite E. reflexivity.
Qed.

Lemma scenes_of_blank_or_fallback_witness :
  scene_texts (generate_prompts_from_story "   ") = []
  /\ scene_texts (generate_prompts_from_story "Hi.") <> []
  /\ scene_texts (generate_prompts_from_story "Hi.") = ["Hi."].
Proof.
  split.
  - exact (proj1 (scenes_of_blank_or_fallback "   ") eq_refl).
  - split.
    + exact (proj1 (proj2 (scenes_of_blank_or_fallback "Hi.") eq_refl)).
    + exact (proj2 (proj2 (scenes_of_blank_or_fallback "Hi.") eq_refl) eq_refl).
Defined.

(** C7 as stated fails: the fallback scene of " Hi " is " Hi ", while the
    trimmed text is "Hi". *)
Lemma fallback_scene_is_not_trimmed :
  split_scenes " Hi " = []
  /\ scene_texts (generate_prompts_from_story " Hi ") = [" Hi "]
  /\ strip " Hi " = "Hi"
  /\ scene_texts (generate_prompts_from_story " Hi ") <> [strip " Hi "].
Proof. vm_compute. repeat split; discriminate. Qed.

End SplitterClaims.

(* ================================================================== *)
(** * The render loops and the segments they reach *)
(* ================================================================== *)

Section Loops.
Variable h : Host.

Lemma extend_nil (acc : Acc) : extend h acc [] = acc.
Proof.
  destruct acc as [vs fs]. unfold extend, manifest_entries. simpl.
  rewrite !app_nil_r. reflexivity.
Qed.

Lemma extend_app (acc : Acc) (s1 s2 : list Segment) :
  extend h (extend h acc s1) s2 = extend h acc (s1 ++ s2)%list.
Proof.
  unfold extend, manifest_entries. simpl.
  rewrite !map_app, !app_assoc. reflexivity.
Qed.

Lemma outcomes_length (segs : list Segment) :
  forall log, List.length (outcomes h log segs) = List.length segs.
Proof. induction segs as [|seg rest IH]; intros log; simpl; auto. Qed.

Lemma combine_app_same {A B} (a1 a2 : list A) (b1 b2 : list B) :
  List.length b1 = List.length a1 ->
  combine (a1 ++ a2) (b1 ++ b2) = (combine a1 b1 ++ combine a2 b2)%list.
Proof.
  revert b1. induction a1 as [|x xs IH]; intros [|y ys]; simpl;
    try discriminate; intros L; [reflexivity|].
  f_equal. apply IH. congruence.
Qed.

Lemma render_events_app (s1 s2 : list Segment) (o1 o2 : list bool) :
  List.length o1 = List.length s1 ->
  render_events (s1 ++ s2) (o1 ++ o2)
  = (render_events s1 o1 ++ render_events s2 o2)%list.
Proof.
  intros L. unfold render_events.
  rewrite combine_app_same by exact L. apply map_app.
Qed.

Lemma produced_app (s1 s2 : list Segment) (o1 o2 : list bool) :
  List.length o1 = List.length s1 ->
  produced (s1 ++ s2) (o1 ++ o2) = (produced s1 o1 ++ produced s2 o2)%list.
Proof.
  intros L. unfold produced.
  rewrite combine_app_same by exact L.
  rewrite filter_app. apply map_app.
Qed.

Lemma outcomes_app (s1 s2 : list Segment) :
  forall log,
    outcomes h log (s1 ++ s2)
    = (outcomes h log s1
       ++ outcomes h (log ++ render_events s1 (outcomes h log s1)) s2)%list.
Proof.
  induction s1 as [|seg rest IH]; intros log; simpl.
  - unfold render_events. simpl. rewrite app_nil_r. reflexivity.
  - f_equal. rewrite IH. unfold render_events. simpl.
    rewrite <- app_assoc. reflexivity.
Qed.

Lemma render_run (acc : Acc) (seg : Segment) (log : list Event) :
  render h acc seg log
  = (inr (if run_ok h log (seg_cmd seg) then extend h acc [seg] else acc),
     (log ++ [Run (seg_cmd seg) (run_ok h log (seg_cmd seg))])%list).
Proof.
  unfold render, try_except, bind, subprocess_run, ret.
  destruct (run_ok h log (seg_cmd seg)); reflexivity.
Qed.

Lemma image_loop_run (job_id : string) (i k : nat) (d : float) (c : string)
      (jimgs : list (nat * string)) :
  forall acc log,
    for_each (image_step h job_id i k d c) jimgs acc log
    = loop_result h (image_segments h job_id i k d c jimgs) acc log.
Proof.
  induction jimgs as [|jimg rest IH]; intros acc log.
  - unfold loop_result, render_events. simpl.
    rewrite extend_nil, app_nil_r. reflexivity.
  - simpl. unfold bind at 1. unfold image_step at 1. unfold bind, lift.
    destruct (segment h job_id i k d c (fst jimg) (snd jimg)) as [e|seg].
    + unfold loop_result, render_events. simpl. rewrite app_nil_r. reflexivity.
    + rewrite render_run. rewrite IH. unfold loop_result. simpl.
      set (ok := run_ok h log (seg_cmd seg)).
      set (r := image_segments h job_id i k d c rest).
      set (oks := outcomes h (log ++ [Run (seg_cmd seg) ok]) (fst r)).
      f_equal.
      * destruct (snd r); [reflexivity|]. f_equal.
        unfold produced. simpl. destruct ok; simpl.
        -- apply extend_app.
        -- reflexivity.
      * unfold render_events. simpl. rewrite <- app_assoc. reflexivity.
Qed.

Lemma scene_step_run (m : PyDict) (job_id : string) (dpp : float)
      (caps : list string) (ip : nat * Z) (acc : Acc) (log : list Event) :
  scene_step h m job_id dpp caps acc ip log
  = loop_result h (scene_segments h m job_id dpp caps ip) acc log.
Proof.
  unfold scene_step, scene_segments.
  destruct (lookup m (snd ip)) as [[|img images]|].
  - unfold loop_result, render_events, ret. simpl.
    rewrite extend_nil, app_nil_r. reflexivity.
  - unfold bind at 1. unfold lift.
    destruct (current_scene_text (snd ip) caps) as [e|t].
    + unfold loop_result, render_events. simpl. rewrite app_nil_r. reflexivity.
    + apply image_loop_run.
  - unfold loop_result, render_events, raise. simpl. rewrite app_nil_r.
    reflexivity.
Qed.

Lemma scene_loop_run (m : PyDict) (job_id : string) (dpp : float)
      (caps : list string) (ips : list (nat * Z)) :
  forall acc log,
    for_each (scene_step h m job_id dpp caps) ips acc log
    = loop_result h (scenes_segments h m job_id dpp caps ips) acc log.
Proof.
  induction ips as [|ip rest IH]; intros acc log.
  - unfold loop_result, render_events. simpl.
    rewrite extend_nil, app_nil_r. reflexivity.
  - simpl. unfold bind at 1. rewrite scene_step_run.
    destruct (scene_segments h m job_id dpp caps ip) as [segs [e|]] eqn:E.
    + reflexivity.
    + unfold loop_result at 1. simpl. rewrite IH. unfold loop_result. simpl.
      set (r := scenes_segments h m job_id dpp caps rest).
      rewrite outcomes_app.
      set (o1 := outcomes h log segs).
      set (o2 := outcomes h (log ++ render_events segs o1) (fst r)).
      assert (L : List.length o1 = List.length segs) by apply outcomes_length.
      rewrite render_events_app, produced_app by exact L.
      rewrite extend_app, app_assoc. reflexivity.
Qed.

(** The loops of [create_video_from_prompts] render the planned
    segments, in order, and nothing else. *)
Lemma render_segments_run (m : PyDict) (job_id : string) (dpp : float)
      (caps : list string) (log : list Event) :
  render_segments h m job_id dpp caps log
  = loop_result h
      (scenes_segments h m job_id dpp caps
         (Py.enumerate 0 (Py.sorted (keys m))))
      ([], []) log.
Proof. apply scene_loop_run. Qed.

End Loops.

Section Planned.
Variable h : Host.

Lemma in_enumerate {A} (l : list A) :
  forall start i x,
    In (i, x) (Py.enumerate start l) ->
    (start <= i)%nat /\ nth_error l (i - start) = Some x.
Proof.
  induction l as [|y ys IH]; intros start i x H; simpl in H; [contradiction|].
  destruct H as [H|H].
  - inversion H; subst. split; [lia|]. rewrite Nat.sub_diag. reflexivity.
  - apply IH in H as [L N]. split; [lia|].
    replace (i - start)%nat with (S (i - S start)) by lia. exact N.
Qed.

Lemma segment_fields (job_id : string) (i k : nat) (d : float) (c : string)
      (j : nat) (img : string) (seg : Segment) :
  segment h job_id i k d c j img = inr seg ->
  seg_scene seg = i /\ seg_index seg = j /\ seg_image seg = img
  /\ seg_duration seg = d /\ seg_caption seg = c
  /\ seg_effect seg = effect_cycle i k j
  /\ seg_path seg = segment_path_of h job_id i j
  /\ Py.int_of_float (d * Py.float_of_int fps)%float = inr (seg_frames seg - 1)%Z
  /\ seg_cmd seg = render_cmd h img d (effect_cycle i k j) (seg_frames seg) c
                     (segment_path_of h job_id i j).
Proof.
  unfold segment.
  destruct (Py.int_of_float (d * Py.float_of_int fps)%float) as [e|n];
    simpl; [discriminate|].
  intros E. inversion E; subst; simpl.
  replace (n + 1 - 1)%Z with n by lia. repeat split; reflexivity.
Qed.

Lemma in_image_segments (job_id : string) (i k : nat) (d : float) (c : string)
      (seg : Segment) (jimgs : list (nat * string)) :
  In seg (fst (image_segments h job_id i k d c jimgs)) ->
  exists j img, In (j, img) jimgs /\ segment h job_id i k d c j img = inr seg.
Proof.
  induction jimgs as [|[j img] rest IH]; simpl; [contradiction|].
  destruct (segment h job_id i k d c j img) as [e|s] eqn:E; simpl;
    [contradiction|].
  intros [H|H].
  - subst s. exists j, img. auto.
  - destruct (IH H) as (j' & img' & Hin & E'). exists j', img'. auto.
Qed.

Lemma in_scenes_segments (m : PyDict) (job_id : string) (dpp : float)
      (caps : list string) (seg : Segment) (ips : list (nat * Z)) :
  In seg (fst (scenes_segments h m job_id dpp caps ips)) ->
  exists ip, In ip ips /\ In seg (fst (scene_segments h m job_id dpp caps ip)).
Proof.
  induction ips as [|ip rest IH]; simpl; [contradiction|].
  destruct (scene_segments h m job_id dpp caps ip) as [segs [e|]] eqn:E; simpl.
  - intros H. exists ip. rewrite E. auto.
  - intros H. apply in_app_or in H as [H|H].
    + exists ip. rewrite E. auto.
    + destruct (IH H) as (ip' & Hin & H'). exists ip'. auto.
Qed.

(** Every segment the loops reach was built from a scene of the map, one
    of its images and the text the caption guard selects. *)
Lemma planned_segment (m : PyDict) (job_id : string) (T : float)
      (caps : list string) (seg : Segment) :
  In seg (fst (planned h m job_id T caps)) ->
  planned_from h m job_id (duration_per_prompt_of T m) caps seg.
Proof.
  unfold planned. intros H.
  apply in_scenes_segments in H as ([i p] & Hip & H).
  apply in_enumerate in Hip as [_ Hp]. rewrite Nat.sub_0_r in Hp.
  unfold scene_segments in H. simpl in H.
  destruct (lookup m p) as [[|img0 images]|] eqn:L; try contradiction.
  destruct (current_scene_text p caps) as [e|t] eqn:C; [contradiction|].
  apply in_image_segments in H as (j & img & Hj & S).
  apply in_enumerate in Hj as [_ Hj]. rewrite Nat.sub_0_r in Hj.
  pose proof (segment_fields _ _ _ _ _ _ _ _ S) as (Ei & Ej & Eimg & _).
  apply PlannedFrom with (p := p) (images := img0 :: images) (scene_text := t);
    rewrite ?Ei, ?Ej, ?Eimg; auto.
Qed.

End Planned.

(* ================================================================== *)
(** * The whole run *)
(* ================================================================== *)

Section Run.
Variable h : Host.

Lemma get_audio_duration_run (voice : string) (log : list Event) :
  exists T ev,
    get_audio_duration h voice log = (inr T, (log ++ [ev])%list) /\ is_probe ev.
Proof.
  unfold get_audio_duration.
  eexists. eexists. split; [reflexivity|]. exact I.
Qed.

(** The timing basis is always resolved, and by probing at most. *)
Lemma total_duration_run (target : option float) (voice : string)
      (log : list Event) :
  exists T log0,
    total_duration h target voice log = (inr T, (log ++ log0)%list)
    /\ Forall is_probe log0.
Proof.
  unfold total_duration.
  assert (P : exists T log0,
             get_audio_duration h voice log = (inr T, (log ++ log0)%list)
             /\ Forall is_probe log0).
  { destruct (get_audio_duration_run voice log) as (T & ev & E & H).
    exists T, [ev]. split; [exact E|]. repeat constructor. exact H. }
  destruct target as [t|]; [|exact P].
  destruct (PrimFloat.eqb t 0); [exact P|].
  exists (t * Py.float_of_int 60)%float, []. unfold ret.
  rewrite app_nil_r. split; [reflexivity | constructor].
Qed.

Lemma for_each_remove (paths : list string) :
  forall log, exists res evs,
    for_each (fun (_ : unit) seg => os_remove h seg) paths tt log
    = (res, (log ++ evs)%list) /\ Forall is_remove evs.
Proof.
  induction paths as [|path rest IH]; intros log; simpl.
  - exists (inr tt), []. unfold ret. rewrite app_nil_r. split; [auto|constructor].
  - unfold bind, os_remove at 1.
    destruct (remove_ok h log path) eqn:R.
    + destruct (IH (log ++ [Remove path true])%list) as (res & evs & E & F).
      exists res, (Remove path true :: evs). rewrite E.
      rewrite <- app_assoc. split; [reflexivity|].
      constructor; [exact I | exact F].
    + exists (inl Py.OSError), [Remove path false].
      split; [reflexivity|]. repeat constructor.
Qed.

(** The clean-up never raises and only removes files. *)
Lemma cleanup_run (job_id : string) (video_segments : list string)
      (log : list Event) :
  exists evs,
    cleanup h job_id video_segments log = (inr tt, (log ++ evs)%list)
    /\ Forall is_remove evs.
Proof.
  unfold cleanup, try_except, bind, os_remove at 1 2.
  destruct (remove_ok h log (segment_list_file_of h job_id)) eqn:R1.
  - set (log1 := (log ++ [Remove (segment_list_file_of h job_id) true])%list).
    destruct (remove_ok h log1 (concatenated_video_path_of h job_id)) eqn:R2.
    + set (log2 := (log1 ++ [Remove (concatenated_video_path_of h job_id) true])%list).
      destruct (for_each_remove video_segments log2) as (res & evs & E & F).
      rewrite E.
      exists (Remove (segment_list_file_of h job_id) true
              :: Remove (concatenated_video_path_of h job_id) true :: evs).
      split.
      * unfold log2, log1, ret. rewrite <- !app_assoc. simpl.
        destruct res as [e|[]]; reflexivity.
      * repeat constructor. exact F.
    + eexists [_; _]. unfold log1, ret. rewrite <- app_assoc. simpl.
      split; [reflexivity|]. repeat constructor.
  - eexists [_]. unfold ret. split; [reflexivity|]. repeat constructor.
Qed.

(** The steps after the loops. *)
Lemma assemble_run (job_id voice : string) (acc : Acc) (log : list Event) :
  exists w c a evs,
    assemble h job_id voice acc log
    = assemble_result h job_id voice acc log w c a evs
    /\ Forall is_remove evs.
Proof.
  unfold assemble, assemble_result, write_segment_list, try_except, bind,
    write_file, subprocess_run, raise.
  set (f := segment_list_file_of h job_id).
  set (text := manifest_text (snd acc)).
  destruct (write_ok h log f text) eqn:W.
  2:{ exists false, false, false, []. split; [reflexivity | constructor]. }
  set (log1 := (log ++ [WriteFile f text true])%list).
  destruct (run_ok h log1 (cmd_concat h job_id)) eqn:C.
  2:{ exists true, false, false, []. unfold log1. rewrite <- app_assoc.
      split; [reflexivity | constructor]. }
  set (log2 := (log1 ++ [Run (cmd_concat h job_id) true])%list).
  destruct (run_ok h log2 (cmd_add_audio h job_id voice)) eqn:A.
  2:{ exists true, true, false, []. unfold log2, log1. rewrite <- !app_assoc.
      split; [reflexivity | constructor]. }
  set (log3 := (log2 ++ [Run (cmd_add_audio h job_id voice) true])%list).
  destruct (cleanup_run job_id (fst acc) log3) as (evs & E & F).
  rewrite E. exists true, true, true, evs. unfold ret, log3, log2, log1.
  rewrite <- !app_assoc. split; [reflexivity | exact F].
Qed.

(** The run of [create_video_from_prompts] once the timing basis [T] is
    known: the two checks, the planned renders, the assembly. *)
Lemma create_video_run (m : PyDict) (voice job_id : string)
      (target : option float) (caps : list string)
      (T : float) (log log0 : list Event) :
  total_duration h target voice log = (inr T, log0) ->
  create_video_from_prompts h m voice job_id target caps log
  = if PrimFloat.eqb T 0 then (inl (Py.Exception no_duration_error), log0)
    else if (List.length m =? 0)%nat
         then (inl (Py.Exception no_prompts_error), log0)
         else
           let r := planned h m job_id T caps in
           let oks := outcomes h log0 (fst r) in
           let log1 := (log0 ++ render_events (fst r) oks)%list in
           match snd r with
           | Some e => (inl e, log1)
           | None =>
               assemble h job_id voice
                 (extend h ([], []) (produced (fst r) oks)) log1
           end.
Proof.
  intros E. unfold create_video_from_prompts. unfold bind at 1. rewrite E.
  destruct (PrimFloat.eqb T 0); [reflexivity|].
  destruct (List.length m =? 0)%nat; [reflexivity|].
  unfold bind. rewrite render_segments_run. unfold loop_result, planned,
    duration_per_prompt_of. simpl.
  destruct (snd (scenes_segments h m job_id _ caps _)); reflexivity.
Qed.

End Run.

Section Order.
Variable h : Host.

Lemma map_snd_enumerate {A} (l : list A) :
  forall start, map snd (Py.enumerate start l) = l.
Proof. induction l as [|x xs IH]; intros start; simpl; [|rewrite IH]; auto. Qed.

Lemma image_segments_images (job_id : string) (i k : nat) (d : float)
      (c : string) (jimgs : list (nat * string)) :
  snd (image_segments h job_id i k d c jimgs) = None ->
  map (@seg_image) (fst (image_segments h job_id i k d c jimgs))
  = map snd jimgs.
Proof.
  induction jimgs as [|[j img] rest IH]; simpl; [reflexivity|].
  destruct (segment h job_id i k d c j img) as [e|seg] eqn:E; simpl;
    [discriminate|].
  intros N. rewrite (IH N).
  apply segment_fields in E as (_ & _ & Eimg & _). rewrite Eimg. reflexivity.
Qed.

Lemma scenes_segments_images (m : PyDict) (job_id : string) (dpp : float)
      (caps : list string) (ips : list (nat * Z)) :
  snd (scenes_segments h m job_id dpp caps ips) = None ->
  map (@seg_image) (fst (scenes_segments h m job_id dpp caps ips))
  = flat_map (images_of m) (map snd ips).
Proof.
  induction ips as [|[i p] rest IH]; simpl; [reflexivity|].
  destruct (scene_segments h m job_id dpp caps (i, p)) as [segs [e|]] eqn:E;
    simpl; [discriminate|].
  intros N. rewrite map_app, (IH N). f_equal.
  unfold scene_segments, images_of in *. simpl in E.
  destruct (lookup m p) as [[|img0 images]|].
  - inversion E. reflexivity.
  - destruct (current_scene_text p caps) as [e|t]; [discriminate|].
    pose proof (image_segments_images job_id i (List.length (img0 :: images))
                  (duration_per_image dpp (List.length (img0 :: images)))
                  (caption_text_of h t) (Py.enumerate 0 (img0 :: images))) as I.
    rewrite E in I. simpl fst in I. simpl snd in I.
    rewrite (I eq_refl). apply (map_snd_enumerate (img0 :: images) 0).
  - discriminate.
Qed.

(** When the loops run to their end, they reach every image of the map,
    scene by scene in ascending order, each scene's images as listed. *)
Lemma planned_images (m : PyDict) (job_id : string) (T : float)
      (caps : list string) :
  snd (planned h m job_id T caps) = None ->
  map (@seg_image) (fst (planned h m job_id T caps)) = images_in_order m.
Proof.
  unfold planned, images_in_order. intros N.
  rewrite (scenes_segments_images _ _ _ _ _ N), map_snd_enumerate. reflexivity.
Qed.

Lemma image_segments_exception (job_id : string) (i k : nat) (d : float)
      (c : string) (jimgs : list (nat * string)) (e : Py.PyExn) :
  snd (image_segments h job_id i k d c jimgs) = Some e ->
  e = Py.OverflowError \/ e = Py.ValueError.
Proof.
  induction jimgs as [|[j img] rest IH]; simpl; [discriminate|].
  unfold segment, Py.int_of_float, Py.round_to_int.
  destruct (Prim2SF (d * Py.float_of_int fps)) as [s|s| |s mm ee]; simpl;
    try (intros E; inversion E; auto; fail); try exact IH.
  destruct (0 <=? ee)%Z; simpl; exact IH.
Qed.

(** The loops raise none of the [Exception]s the function raises itself. *)
Lemma planned_exception (m : PyDict) (job_id : string) (T : float)
      (caps : list string) (e : Py.PyExn) :
  snd (planned h m job_id T caps) = Some e ->
  forall msg, e <> Py.Exception msg.
Proof.
  unfold planned.
  generalize (Py.enumerate 0 (Py.sorted (keys m))) as ips.
  generalize (duration_per_prompt_of T m) as dpp.
  intros dpp ips. induction ips as [|[i p] rest IH]; simpl; [discriminate|].
  destruct (scene_segments h m job_id dpp caps (i, p)) as [segs [e'|]] eqn:E;
    simpl; [|exact IH].
  intros E' msg. inversion E'; subst e'. clear E'.
  unfold scene_segments in E. simpl in E.
  destruct (lookup m p) as [[|img0 images]|].
  - discriminate.
  - unfold current_scene_text in E.
    destruct (p - 1 <? Z.of_nat (List.length caps))%Z.
    + destruct (Py.getitem caps (p - 1)).
      * assert (X : snd (image_segments h job_id i (List.length (img0 :: images))
                      (duration_per_image dpp (List.length (img0 :: images)))
                      (caption_text_of h s) (Py.enumerate 0 (img0 :: images)))
                    = Some e) by (rewrite E; reflexivity).
        apply image_segments_exception in X as [X|X]; subst e; discriminate.
      * inversion E. discriminate.
    + assert (X : snd (image_segments h job_id i (List.length (img0 :: images))
                    (duration_per_image dpp (List.length (img0 :: images)))
                    (caption_text_of h EmptyString)
                    (Py.enumerate 0 (img0 :: images)))
                  = Some e) by (rewrite E; reflexivity).
      apply image_segments_exception in X as [X|X]; subst e; discriminate.
  - inversion E. discriminate.
Qed.

End Order.

Section PipelineClaims.
Variable h : Host.

Lemma produced_length (segs : list Segment) (oks : list bool) :
  List.length oks = List.length segs ->
  (List.length (produced segs oks) + failures oks = List.length segs)%nat.
Proof.
  unfold produced, failures. rewrite length_map.
  revert oks. induction segs as [|seg rest IH]; intros [|ok oks]; simpl;
    try discriminate; [reflexivity|].
  intros L. specialize (IH oks ltac:(congruence)).
  destruct ok; simpl; lia.
Qed.

(** The manifest has one line per path, in the order of the list. *)
Lemma manifest_text_cons (path : string) (paths : list string) :
  manifest_text (path :: paths)
  = "file '" ++ path ++ "'" ++ NL ++ manifest_text paths.
Proof.
  unfold manifest_text. cbn [map].
  rewrite PyFacts.concat_empty_cons.
  rewrite !PyFacts.string_app_assoc. reflexivity.
Qed.

Lemma positive_nonzero (T : float) :
  PrimFloat.ltb 0 T = true -> PrimFloat.eqb T 0 = false.
Proof.
  rewrite ltb_spec, eqb_spec.
  change (Prim2SF 0) with (S754_zero false).
  destruct (Prim2SF T) as [s|s| |s mm ee]; try destruct s;
    try discriminate; reflexivity.
Qed.

(** Past the two checks, the log of the function starts with the
    resolution of the timing basis and the renders of the planned
    segments. *)
Lemma create_video_renders_planned (m : PyDict) (voice job_id : string)
      (target : option float) (caps : list string) (T : float)
      (log0 : list Event) :
  total_duration h target voice [] = (inr T, log0) ->
  PrimFloat.eqb T 0 = false -> m <> [] ->
  let segs := fst (planned h m job_id T caps) in
  exists tail,
    snd (create_video_from_prompts h m voice job_id target caps [])
    = (log0 ++ render_events segs (outcomes h log0 segs) ++ tail)%list.
Proof.
  intros E Z M segs.
  rewrite (create_video_run h m voice job_id target caps T [] log0 E), Z.
  destruct m as [|kv m']; [congruence|]. simpl Nat.eqb. cbv iota zeta.
  fold segs.
  destruct (snd (planned h (kv :: m') job_id T caps)).
  - exists []. rewrite app_nil_r. reflexivity.
  - match goal with
    | |- context [assemble h ?j ?v ?a ?l] =>
        destruct (assemble_run h j v a l) as (w & c & a' & evs & A & _);
        rewrite A
    end.
    unfold assemble_result.
    destruct w, c, a'; simpl; eexists; rewrite <- app_assoc; reflexivity.
Qed.

(** C3.  In a job with a positive timing basis [T] and a map of [S]
    scenes, the function reaches the loops; the loops, when they run to
    their end, reach every image of the map; and every segment they
    reach, for an image of a scene that holds [k] images, is given the
    duration [max(0.5, (T / S) / k)].  For [T = 60] and three scenes of one image
    this is 20.0; for [T = 0.2] and one scene of one image it is 0.5. *)
Theorem allocated_duration :
  (forall (m : PyDict) (voice job_id : string) (target : option float)
          (caps : list string) (T : float) (log0 : list Event),
      total_duration h target voice [] = (inr T, log0) ->
      PrimFloat.ltb 0 T = true -> m <> [] ->
      let segs := fst (planned h m job_id T caps) in
      (exists tail,
          snd (create_video_from_prompts h m voice job_id target caps [])
          = (log0 ++ render_events segs (outcomes h log0 segs) ++ tail)%list)
      /\ (snd (planned h m job_id T caps) = None ->
          map (@seg_image) segs = images_in_order m)
      /\ forall seg, In seg segs ->
           exists p images,
             nth_error (Py.sorted (keys m)) (seg_scene seg) = Some p
             /\ lookup m p = Some images
             /\ nth_error images (seg_index seg) = Some (seg_image seg)
             /\ seg_duration seg
                = Py.max 0.5
                    (T / Py.float_of_int (Z.of_nat (List.length m))
                     / Py.float_of_int (Z.of_nat (List.length images)))%float)
  /\ (forall m : PyDict, List.length m = 3%nat ->
        duration_per_image (duration_per_prompt_of 60 m) 1 = 20%float)
  /\ (forall m : PyDict, List.length m = 1%nat ->
        duration_per_image (duration_per_prompt_of 0x1.999999999999ap-3 m) 1
        = 0.5%float).
Proof.
  split; [|split].
  - intros m voice job_id target caps T log0 E P M segs. split; [|split].
    + apply create_video_renders_planned; auto using positive_nonzero.
    + apply planned_images.
    + intros seg Hin. apply planned_segment in Hin.
      destruct Hin as [p images t Hp Hl Hi _ Hs].
      apply segment_fields in Hs as (_ & _ & _ & Hd & _).
      exists p, images. repeat split; auto.
  - intros m L. unfold duration_per_prompt_of. rewrite L. reflexivity.
  - intros m L. unfold duration_per_prompt_of. rewrite L. reflexivity.
Qed.

End PipelineClaims.

(** A scene without images is still a scene of the map: the map
    [{1: []}] passes both checks, nothing is rendered, and the manifest
    is written empty. *)
Lemma scene_without_images_passes_checks :
  create_video_from_prompts (Sample.host [] (Some 30%float)) [(1%Z, [])]
    "voice.mp3" "job" None Sample.captions []
  = assemble (Sample.host [] (Some 30%float)) "job" "voice.mp3" ([], [])
      [Probe (ffprobe_cmd (Sample.host [] None) "voice.mp3") (Some 30%float)].
Proof. vm_compute. reflexivity. Qed.

Lemma allocated_duration_witness :
  let h := Sample.host [] (Some 60%float) in
  let segs := fst (planned h Sample.one_image_scenes "job" 60 Sample.captions) in
  List.length segs = 3%nat
  /\ Forall (fun seg => seg_duration seg = 20%float) segs.
Proof.
  intros h segs. split; [vm_compute; reflexivity|].
  apply Forall_forall. intros seg Hin.
  destruct (proj1 (allocated_duration h) Sample.one_image_scenes "voice.mp3"
              "job" None Sample.captions 60%float
              [Probe (ffprobe_cmd h "voice.mp3") (Some 60%float)]
              ltac:(vm_compute; reflexivity) ltac:(vm_compute; reflexivity)
              ltac:(discriminate)) as (_ & _ & A).
  destruct (A seg Hin) as (p & images & _ & Hl & _ & D).
  rewrite D. clear D.
  assert (K : List.length images = 1%nat).
  { unfold Sample.one_image_scenes in Hl. simpl in Hl.
    destruct (p =? 1)%Z; [inversion Hl; reflexivity|].
    destruct (p =? 2)%Z; [inversion Hl; reflexivity|].
    destruct (p =? 3)%Z; [inversion Hl; reflexivity | discriminate]. }
  rewrite K. vm_compute. reflexivity.
Defined.

(* ================================================================== *)
(** * The image-to-scene mapper: theorems *)
(* ================================================================== *)

Section Mapper.

Lemma digit_value_nonneg (c : ascii) :
  Py.isdigit c = true -> (0 <= Py.digit_value c)%Z.
Proof.
  unfold Py.isdigit, Py.digit_value. intros H.
  apply andb_prop in H as [H _]. apply Nat.leb_le in H. lia.
Qed.

Lemma int_of_leading_digits_nonneg (s : string) :
  forall acc, (0 <= acc)%Z ->
    (0 <= Py.int_of_digits acc (leading_digits s))%Z.
Proof.
  induction s as [|c r IH]; intros acc A; [exact A|].
  cbn [leading_digits]. destruct (Py.isdigit c) eqn:D; [|exact A].
  cbn [Py.int_of_digits]. apply IH.
  pose proof (digit_value_nonneg c D). lia.
Qed.

Lemma file_number_nonneg (img : string) (n : Z) :
  file_number_of img = Some n -> (0 <= n)%Z.
Proof.
  unfold file_number_of.
  destruct (Py.truthy (leading_digits (Py.basename img))); [|discriminate].
  intros E. inversion E. apply int_of_leading_digits_nonneg. lia.
Qed.

(** Rounding a positive mantissa never yields a negative float. *)
Lemma binary_round_sign (m : positive) (e : Z) :
  match binary_round prec emax false m e with
  | S754_finite true _ _ => False
  | _ => True
  end.
Proof.
  unfold binary_round, binary_round_aux.
  destruct (shl_align m e _) as [mz ez].
  destruct (shr_fexp prec emax (Z.pos mz) ez loc_Exact) as [mrs' e'].
  destruct (shr_fexp prec emax _ e' loc_Exact) as [mrs'' e''].
  destruct (shr_m mrs''); try exact I.
  destruct (e'' <=? emax - prec)%Z; exact I.
Qed.

Lemma ceil_nonneg (x : spec_float) (k : Z) :
  match x with S754_finite true _ _ => False | _ => True end ->
  Py.ceil x = inr k -> (0 <= k)%Z.
Proof.
  unfold Py.ceil, Py.round_to_int.
  destruct x as [s|s| |s mm ee]; try discriminate.
  - intros _ E. injection E as E. lia.
  - destruct s; [contradiction|]. intros _.
    assert (V : (0 < Z.pos mm)%Z) by lia.
    generalize dependent (Z.pos mm). intros v V.
    destruct (0 <=? ee)%Z eqn:Le; intros E; injection E as E; subst k.
    + apply Z.leb_le in Le. apply Z.mul_nonneg_nonneg; [lia|].
      apply Z.pow_nonneg. lia.
    + apply Z.leb_gt in Le.
      assert (D : (0 < 2 ^ (- ee))%Z) by (apply Z.pow_pos_nonneg; lia).
      assert ((- v) / 2 ^ (- ee) < 1)%Z by (apply Z.div_lt_upper_bound; lia).
      lia.
Qed.

Lemma prompt_number_nonneg (n k : Z) :
  (0 <= n)%Z -> prompt_number_of n = inr k -> (0 <= k)%Z.
Proof.
  intros N. unfold prompt_number_of, Py.int_truediv_2, Py.bind_result.
  assert (S : match binary_normalize prec emax n (-1) false with
              | S754_finite true _ _ => False
              | _ => True
              end).
  { destruct n as [|m|m]; [exact I | apply binary_round_sign | lia]. }
  destruct (binary_normalize prec emax n (-1) false) as [s|s| |s mm ee] eqn:B;
    try discriminate; apply ceil_nonneg; exact S.
Qed.

(** ** [append_at] *)

Lemma lookup_append_at_same (m : PyDict) (k : Z) (v : string) :
  lookup (append_at m k v) k = Some (images_of m k ++ [v])%list.
Proof.
  unfold images_of. induction m as [|[k' l] r IH]; simpl.
  - rewrite Z.eqb_refl. reflexivity.
  - destruct (k =? k')%Z eqn:E; simpl; rewrite E; [reflexivity | exact IH].
Qed.

Lemma lookup_append_at_other (m : PyDict) (k k' : Z) (v : string) :
  k' <> k -> lookup (append_at m k v) k' = lookup m k'.
Proof.
  intros N. induction m as [|[k0 l] r IH]; simpl.
  - destruct (k' =? k)%Z eqn:E; [apply Z.eqb_eq in E; congruence | reflexivity].
  - destruct (k =? k0)%Z eqn:E; simpl.
    + apply Z.eqb_eq in E. subst k0.
      destruct (k' =? k)%Z eqn:E'; [apply Z.eqb_eq in E'; congruence | reflexivity].
    + rewrite IH. reflexivity.
Qed.

Lemma images_of_append_at (m : PyDict) (k k' : Z) (v : string) :
  images_of (append_at m k v) k'
  = (images_of m k' ++ if (k =? k')%Z then [v] else [])%list.
Proof.
  destruct (k =? k')%Z eqn:E.
  - apply Z.eqb_eq in E. subst k'. unfold images_of at 1.
    rewrite lookup_append_at_same. reflexivity.
  - apply Z.eqb_neq in E. unfold images_of.
    rewrite lookup_append_at_other by congruence.
    rewrite app_nil_r. reflexivity.
Qed.

Lemma keys_append_at (m : PyDict) (k : Z) (v : string) :
  forall k', In k' (keys (append_at m k v)) <-> In k' (keys m) \/ k' = k.
Proof.
  intros k'. induction m as [|[k0 l] r IH]; simpl.
  - intuition.
  - destruct (k =? k0)%Z eqn:E; simpl.
    + apply Z.eqb_eq in E. subst k0. intuition.
    + unfold keys in IH. rewrite IH. intuition.
Qed.

Lemma NoDup_append_at (m : PyDict) (k : Z) (v : string) :
  wf_dict m -> wf_dict (append_at m k v).
Proof.
  unfold wf_dict. induction m as [|[k0 l] r IH]; simpl; intros W.
  - repeat constructor. intros [].
  - inversion W as [|? ? Hn Hr]; subst.
    destruct (k =? k0)%Z eqn:E; simpl.
    + constructor; assumption.
    + constructor; [|apply IH; exact Hr].
      intros H. apply keys_append_at in H as [H|H]; [contradiction|].
      apply Z.eqb_neq in E. congruence.
Qed.

(** A key of the map is a key with images: [lookup] finds it. *)
Lemma in_keys_lookup (m : PyDict) (k : Z) :
  In k (keys m) <-> exists l, lookup m k = Some l.
Proof.
  induction m as [|[k0 l0] r IH]; simpl.
  - split; [intros [] | intros [l E]; discriminate].
  - destruct (k =? k0)%Z eqn:E.
    + apply Z.eqb_eq in E. split; eauto.
    + apply Z.eqb_neq in E. unfold keys in IH. rewrite <- IH.
      split; [intros [H|H]; [congruence | exact H] | auto].
Qed.

(** ** The loop *)

Lemma map_step_eq (pm : PyDict) (img : string) :
  map_step pm img
  = match file_number_of img with
    | None => inr pm
    | Some n =>
        if int_accepts img then
          match prompt_number_of n with
          | inl e => inl e
          | inr k => inr (append_at pm k img)
          end
        else inl Py.ValueError
    end.
Proof.
  unfold map_step, file_number_of, int_accepts, Py.int.
  destruct (Py.truthy (leading_digits (Py.basename img))); [|reflexivity].
  rewrite Z.ltb_antisym.
  destruct (Z.of_nat (String.length (leading_digits (Py.basename img)))
            <=? Py.int_max_str_digits)%Z; reflexivity.
Qed.

(** A name without a leading number has no digits to convert. *)
Lemma unnumbered_int_accepts (img : string) :
  file_number_of img = None -> int_accepts img = true.
Proof.
  unfold file_number_of, int_accepts.
  destruct (leading_digits (Py.basename img)); [reflexivity | discriminate].
Qed.

(** What one turn of the loop does to the map. *)
Lemma map_step_spec (pm pm' : PyDict) (img : string) :
  map_step pm img = inr pm' ->
  (wf_dict pm -> wf_dict pm')
  /\ (forall k, images_of pm' k
                = (images_of pm k ++ if goes_to k img then [img] else [])%list)
  /\ (forall k, In k (keys pm') <-> In k (keys pm) \/ goes_to k img = true)
  /\ (Forall (fun k => 0 <= k)%Z (keys pm) ->
      Forall (fun k => 0 <= k)%Z (keys pm')).
Proof.
  rewrite map_step_eq. unfold goes_to.
  destruct (file_number_of img) as [n|] eqn:F.
  2:{ intros E. injection E as <-. split; [auto|]. split; [|split; [|auto]].
      - intros k. rewrite app_nil_r. reflexivity.
      - intros k. split; [auto|]. intros [H|H]; [exact H | discriminate]. }
  destruct (int_accepts img); [|discriminate].
  destruct (prompt_number_of n) as [e|k0] eqn:P; [discriminate|].
  intros E. injection E as <-. repeat split.
  - apply NoDup_append_at.
  - intros k. rewrite images_of_append_at. reflexivity.
  - intros H. apply keys_append_at in H as [H|H]; [auto|].
    right. apply Z.eqb_eq. congruence.
  - intros [H|H]; apply keys_append_at; [auto|].
    right. apply Z.eqb_eq in H. congruence.
  - intros A. apply Forall_forall. intros k H.
    apply keys_append_at in H as [H|H].
    + rewrite Forall_forall in A. auto.
    + subst k. apply (prompt_number_nonneg n); [|exact P].
      apply (file_number_nonneg img). exact F.
Qed.

Lemma map_loop_spec (files : list string) :
  forall pm pm',
    map_loop pm files = inr pm' ->
    (wf_dict pm -> wf_dict pm')
    /\ (forall k, images_of pm' k
                  = (images_of pm k ++ filter (goes_to k) files)%list)
    /\ (forall k, In k (keys pm') <->
                  In k (keys pm)
                  \/ exists img, In img files /\ goes_to k img = true)
    /\ (Forall (fun k => 0 <= k)%Z (keys pm) ->
        Forall (fun k => 0 <= k)%Z (keys pm')).
Proof.
  induction files as [|img rest IH]; intros pm pm'; simpl.
  - intros E. injection E as <-. split; [auto|]. split; [|split; [|auto]].
    + intros k. rewrite app_nil_r. reflexivity.
    + intros k. split; [auto|]. intros [H|(img & [] & _)]. exact H.
  - unfold Py.bind_result.
    destruct (map_step pm img) as [e|pm1] eqn:S; [discriminate|].
    intros E. apply map_step_spec in S as (W1 & I1 & K1 & N1).
    apply IH in E as (W2 & I2 & K2 & N2). repeat split; auto.
    + intros k. rewrite I2, I1, <- app_assoc. f_equal.
      destruct (goes_to k img); reflexivity.
    + intros H. apply K2 in H as [H|(x & Hx & G)].
      * apply K1 in H as [H|H]; [auto|]. right. exists img. auto.
      * right. exists x. auto.
    + intros [H|(x & [Hx|Hx] & G)]; apply K2.
      * left. apply K1. auto.
      * subst x. left. apply K1. auto.
      * right. exists x. auto.
Qed.

(** ** Sorting *)

Lemma in_insert_sorted (k : Z) (l : list Z) :
  forall x, In x (Py.insert_sorted k l) <-> x = k \/ In x l.
Proof.
  intros x. induction l as [|y ys IH]; simpl; [intuition|].
  destruct (k <? y)%Z; simpl; [intuition|]. rewrite IH. intuition.
Qed.

Lemma insert_sorted_strict (k : Z) (l : list Z) :
  StronglySorted Z.lt l -> ~ In k l ->
  StronglySorted Z.lt (Py.insert_sorted k l).
Proof.
  induction l as [|y ys IH]; simpl; intros S N.
  - repeat constructor.
  - inversion S as [|? ? S' F]; subst.
    destruct (k <? y)%Z eqn:E.
    + apply Z.ltb_lt in E. constructor; [exact S|].
      constructor; [exact E|].
      rewrite Forall_forall in *. intros x Hx. specialize (F x Hx). lia.
    + apply Z.ltb_ge in E. constructor.
      * apply IH; [exact S' | intuition].
      * apply Forall_forall. intros x Hx.
        apply in_insert_sorted in Hx as [Hx|Hx].
        -- subst x. assert (k <> y) by intuition. lia.
        -- rewrite Forall_forall in F. auto.
Qed.

Lemma insert_sorted_perm (k : Z) (l : list Z) :
  Permutation (Py.insert_sorted k l) (k :: l).
Proof.
  induction l as [|y ys IH]; simpl; [reflexivity|].
  destruct (k <? y)%Z; [reflexivity|].
  rewrite IH. apply perm_swap.
Qed.

Lemma fold_insert_sorted_strict (l : list Z) :
  forall acc,
    StronglySorted Z.lt acc -> NoDup (l ++ acc) ->
    StronglySorted Z.lt (fold_left (fun a k => Py.insert_sorted k a) l acc)
    /\ forall x, In x (fold_left (fun a k => Py.insert_sorted k a) l acc)
                 <-> In x l \/ In x acc.
Proof.
  induction l as [|k ks IH]; intros acc S N; simpl.
  - split; [exact S | intuition].
  - simpl in N. inversion N as [|? ? Hk Hks]; subst.
    destruct (IH (Py.insert_sorted k acc)) as [S' I'].
    + apply insert_sorted_strict; [exact S|].
      intros H. apply Hk. apply in_or_app. auto.
    + apply (Permutation_NoDup (l := k :: ks ++ acc)); [|exact N].
      rewrite insert_sorted_perm. apply Permutation_middle.
    + split; [exact S'|]. intros x. rewrite I', in_insert_sorted. intuition.
Qed.

(** [sorted] gives the keys of a dictionary in strictly ascending order. *)
Lemma sorted_strict (l : list Z) :
  NoDup l ->
  StronglySorted Z.lt (Py.sorted l) /\ forall x, In x (Py.sorted l) <-> In x l.
Proof.
  intros N. unfold Py.sorted.
  destruct (fold_insert_sorted_strict l []) as [S I].
  - constructor.
  - rewrite app_nil_r. exact N.
  - split; [exact S|]. intros x. rewrite I. simpl. intuition.
Qed.

Lemma keys_insert_item (kv : Z * list string) (m : PyDict) :
  keys (insert_item kv m) = Py.insert_sorted (fst kv) (keys m).
Proof.
  unfold keys. induction m as [|x xs IH]; simpl; [reflexivity|].
  destruct (fst kv <? fst x)%Z; simpl; [reflexivity|].
  rewrite IH. reflexivity.
Qed.

Lemma keys_fold_insert_item (m : PyDict) :
  forall acc,
    keys (fold_left (fun a kv => insert_item kv a) m acc)
    = fold_left (fun a k => Py.insert_sorted k a) (keys m) (keys acc).
Proof.
  induction m as [|kv r IH]; intros acc; simpl; [reflexivity|].
  rewrite IH, keys_insert_item. reflexivity.
Qed.

(** Sorting the items sorts the keys. *)
Lemma keys_sorted_items (m : PyDict) :
  keys (sorted_items m) = Py.sorted (keys m).
Proof. apply keys_fold_insert_item. Qed.

Lemma lookup_not_key (m : PyDict) (k : Z) :
  ~ In k (keys m) -> lookup m k = None.
Proof.
  intros N. destruct (lookup m k) as [l|] eqn:E; [|reflexivity].
  exfalso. apply N. apply in_keys_lookup. eauto.
Qed.

Lemma lookup_insert_item (kv : Z * list string) (m : PyDict) (k : Z) :
  ~ In (fst kv) (keys m) ->
  lookup (insert_item kv m) k
  = if (k =? fst kv)%Z then Some (snd kv) else lookup m k.
Proof.
  destruct kv as [k0 l0]. simpl fst. simpl snd.
  induction m as [|[k1 l1] r IH]; simpl; intros N; [reflexivity|].
  destruct (k0 <? k1)%Z; simpl; [reflexivity|].
  rewrite IH by intuition.
  destruct (k =? k1)%Z eqn:E1; [|reflexivity].
  destruct (k =? k0)%Z eqn:E0; [|reflexivity].
  apply Z.eqb_eq in E1, E0. exfalso. apply N. left. congruence.
Qed.

Lemma lookup_fold_insert_item (m : PyDict) :
  forall acc k,
    NoDup (keys m ++ keys acc) ->
    lookup (fold_left (fun a kv => insert_item kv a) m acc) k
    = match lookup m k with
      | Some l => Some l
      | None => lookup acc k
      end.
Proof.
  induction m as [|[k0 l0] r IH]; intros acc k N; simpl; [reflexivity|].
  simpl in N. inversion N as [|? ? Hk Hr]; subst.
  rewrite IH.
  - rewrite lookup_insert_item
      by (simpl; intros H; apply Hk; apply in_or_app; auto).
    simpl. destruct (k =? k0)%Z eqn:E; [|reflexivity].
    apply Z.eqb_eq in E. subst k0.
    rewrite lookup_not_key; [reflexivity|].
    intros H. apply Hk. apply in_or_app. auto.
  - rewrite keys_insert_item. simpl fst.
    apply (Permutation_NoDup (l := k0 :: keys r ++ keys acc)); [|exact N].
    rewrite insert_sorted_perm. apply Permutation_middle.
Qed.

(** Sorting the items keeps what is stored under each key. *)
Lemma lookup_sorted_items (m : PyDict) (k : Z) :
  wf_dict m -> lookup (sorted_items m) k = lookup m k.
Proof.
  intros W. unfold sorted_items. rewrite lookup_fold_insert_item.
  - destruct (lookup m k); reflexivity.
  - simpl. rewrite app_nil_r. exact W.
Qed.

(** The mapper, when it returns: its keys are the scenes some file goes
    to, in strictly ascending order and none negative; under each key are
    the files that go to that scene, in the order they were passed in.
    Files without a leading number go nowhere. *)
Lemma map_images_by_prompt_number_spec (files : list string) (m : PyDict) :
  map_images_by_prompt_number files = inr m ->
  StronglySorted Z.lt (keys m)
  /\ Forall (fun k => 0 <= k)%Z (keys m)
  /\ (forall k, In k (keys m) <->
                exists img, In img files /\ goes_to k img = true)
  /\ (forall k, images_of m k = filter (goes_to k) files).
Proof.
  unfold map_images_by_prompt_number, Py.bind_result.
  destruct (map_loop [] files) as [e|pm] eqn:L; [discriminate|].
  intros E. injection E as <-.
  apply map_loop_spec in L as (W & I & K & N).
  assert (Wpm : wf_dict pm) by (apply W; constructor).
  destruct (sorted_strict (keys pm) Wpm) as [S In_sorted].
  rewrite keys_sorted_items. split; [exact S|]. split; [|split].
  - apply Forall_forall. intros k H. apply In_sorted in H.
    specialize (N (Forall_nil _)). rewrite Forall_forall in N. auto.
  - intros k. rewrite In_sorted, K. simpl. intuition.
  - intros k. unfold images_of at 1. rewrite lookup_sorted_items by exact Wpm.
    apply (I k).
Qed.

End Mapper.

(* ================================================================== *)
(** * Captions *)
(* ================================================================== *)

Section Captions.

Lemma replace_char_app (old : ascii) (new a b : string) :
  Py.replace_char old new (a ++ b)
  = Py.replace_char old new a ++ Py.replace_char old new b.
Proof.
  induction a as [|c r IH]; simpl; [reflexivity|].
  destruct (Ascii.eqb c old); simpl; rewrite IH; [|reflexivity].
  symmetry. apply PyFacts.string_app_assoc.
Qed.

(** The two [replace] calls, one after the other, escape each character
    once: the text put in for a quote holds no colon. *)
Lemma replace_twice_escaped (s : string) :
  Py.replace_char ":" "\:" (Py.replace_char "'" "'\''" s) = escaped s.
Proof.
  induction s as [|c r IH]; [reflexivity|].
  cbn [Py.replace_char escaped]. unfold escape_char.
  destruct (Ascii.eqb c "'") eqn:Q.
  - rewrite replace_char_app, IH. reflexivity.
  - cbn [Py.replace_char]. rewrite IH.
    destruct (Ascii.eqb c ":"); reflexivity.
Qed.

Lemma caption_text_of_escaped (h : Host) (text : string) :
  caption_text_of h text = escaped (Py.join NL (wrap h text 40)).
Proof. apply replace_twice_escaped. Qed.








End Captions.


(* ================================================================== *)
(** * Scene 0, large file numbers, effect variants *)
(* ================================================================== *)

Lemma prompt_number_of_zero : prompt_number_of 0 = inr 0%Z.
Proof. reflexivity. Qed.

(** A file numbered 0 is put under scene 0, the first scene of the map. *)
Lemma scene_zero_first (files : list string) (m : PyDict) (img : string) :
  map_images_by_prompt_number files = inr m ->
  In img files -> file_number_of img = Some 0%Z ->
  exists l rest,
    m = (0%Z, l) :: rest /\ In img l
    /\ Forall (fun kv => 0 < fst kv)%Z rest.
Proof.
  intros E Hin F.
  apply map_images_by_prompt_number_spec in E as (S & N & K & I).
  assert (G : goes_to 0 img = true).
  { unfold goes_to. rewrite F, prompt_number_of_zero. reflexivity. }
  assert (K0 : In 0%Z (keys m)) by (apply K; eauto).
  assert (I0 : In img (images_of m 0)).
  { rewrite I. apply filter_In. auto. }
  destruct m as [|[k l] rest]; [contradiction|].
  simpl in S, N, K0. inversion S as [|? ? S' Lt]; subst.
  inversion N as [|? ? Nk Nrest]; subst.
  assert (k = 0%Z).
  { destruct K0 as [K0|K0]; [exact K0|].
    rewrite Forall_forall in Lt. specialize (Lt _ K0). lia. }
  subst k. exists l, rest. split; [reflexivity|]. split.
  - unfold images_of in I0. simpl in I0. exact I0.
  - apply Forall_forall. intros kv Hkv. rewrite Forall_forall in Lt.
    apply Lt. apply in_map. exact Hkv.
Qed.



(** C5 at a large file number.  The file ["9007199254740993_x.png"] has
    the number 2^53 + 1; the float quotient of that number by 2 is 2^52,
    so the file goes under scene 4503599627370496, while the least
    integer at or above (2^53 + 1) / 2 is 4503599627370497. *)
Theorem mapper_rounds_large_file_number :
  file_number_of "9007199254740993_x.png" = Some 9007199254740993%Z
  /\ map_images_by_prompt_number ["9007199254740993_x.png"]
     = inr [(4503599627370496%Z, ["9007199254740993_x.png"])]
  /\ ceil_half 9007199254740993 = 4503599627370497%Z.
Proof. vm_compute. auto. Qed.

(** The example of the specification: the files numbered 1 to 4. *)
Lemma mapper_two_per_scene :
  map_images_by_prompt_number ["1_x.png"; "2_x.png"; "3_x.png"; "4_x.png"]
  = inr [(1%Z, ["1_x.png"; "2_x.png"]); (2%Z, ["3_x.png"; "4_x.png"])].
Proof. vm_compute. reflexivity. Qed.

(** Files passed out of order keep that order within their scene, and a
    file without a leading number is skipped. *)
Lemma mapper_keeps_input_order :
  map_images_by_prompt_number ["4_x.png"; "/a/b/1_x.png"; "x.png"; "3_x.png"; "2_x.png"]
  = inr [(1%Z, ["/a/b/1_x.png"; "2_x.png"]); (2%Z, ["4_x.png"; "3_x.png"])].
Proof. vm_compute. reflexivity. Qed.

(** The effect variant of a planned segment is computed from the
    position [i] of its scene, the number [k] of images of that scene
    alone, and the position [j] of the image in the scene. *)
Lemma planned_effect (h : Host) (m : PyDict) (job_id : string) (T : float)
      (caps : list string) (seg : Segment) :
  In seg (fst (planned h m job_id T caps)) ->
  exists p images,
    nth_error (Py.sorted (keys m)) (seg_scene seg) = Some p
    /\ lookup m p = Some images
    /\ seg_effect seg
       = ((seg_scene seg * List.length images + seg_index seg) mod 3)%nat.
Proof.
  intros Hin. apply planned_segment in Hin.
  destruct Hin as [p images t Hp Hl _ _ Hs].
  apply segment_fields in Hs as (_ & _ & _ & _ & _ & He & _).
  exists p, images. auto.
Qed.

(** C1 on scenes of unequal size.  The files 1, 3 and 4 make a first
    scene of one image and a second of two.  The three images, at the
    cumulative positions 0, 1, 2, get the variants 0, 2, 0: the second
    one is (1 * 2 + 0) mod 3 = 2, not 1 mod 3. *)
Theorem effect_variant_on_uneven_scenes :
  let h := Sample.host [] None in
  let r := planned h Sample.uneven_scenes "job" 60 Sample.captions in
  map_images_by_prompt_number ["1_a.png"; "3_a.png"; "4_a.png"]
  = inr Sample.uneven_scenes
  /\ snd r = None
  /\ map (@seg_image) (fst r) = ["1_a.png"; "3_a.png"; "4_a.png"]
  /\ map (@seg_effect) (fst r) = [0; 2; 0]%nat
  /\ map (fun position => position mod 3)%nat [0; 1; 2]%nat = [0; 1; 2]%nat.
Proof. vm_compute. auto 6. Qed.

(* ================================================================== *)
(** * The floor and the total duration *)
(* ================================================================== *)

(** One scene of three images and a timing basis of one second: every
    image is given the floor, 0.5 s, whatever the host, the job name and
    the captions. *)
Lemma crowded_scene_planned (h : Host) (job_id : string)
      (caps : list string) :
  snd (planned h Sample.crowded_scene job_id 1 caps) = None
  /\ map (@seg_duration) (fst (planned h Sample.crowded_scene job_id 1 caps))
     = [0.5; 0.5; 0.5]%float.
Proof.
  unfold planned.
  change (Py.enumerate 0 (Py.sorted (keys Sample.crowded_scene)))
    with [(0%nat, 1%Z)].
  cbn [scenes_segments]. unfold scene_segments.
  cbn [snd fst lookup Sample.crowded_scene Z.eqb Pos.eqb List.length].
  destruct (current_scene_text 1 caps) as [e|t] eqn:C.
  { exfalso. unfold current_scene_text, Py.getitem in C.
    change (1 - 1)%Z with 0%Z in C.
    destruct (0 <? Z.of_nat (List.length caps))%Z eqn:L; [|discriminate].
    change (0 <=? 0)%Z with true in C. cbv iota in C.
    destruct caps; [discriminate L | discriminate C]. }
  replace (duration_per_image
             (duration_per_prompt_of 1 Sample.crowded_scene) 3)
    with 0.5%float by (vm_compute; reflexivity).
  cbn [Py.enumerate image_segments fst snd]. unfold segment.
  replace (Py.int_of_float (0.5 * Py.float_of_int fps)%float)
    with (@inr Py.PyExn Z 15%Z) by (vm_compute; reflexivity).
  cbn [Py.bind_result image_segments fst snd app map seg_duration].
  split; reflexivity.
Qed.

(** C9.  For a timing basis of one second and one scene of three images,
    the three allocated durations are the floor, 0.5 s each, and their
    sum, 1.5 s, exceeds the basis.  Nothing rescales the durations
    afterwards: in every job that reaches the loops, the command that
    renders a segment carries, after [-t], the text of the duration
    allocated to it. *)
Theorem floor_drift_is_rendered :
  (exists (T : float) (m : PyDict),
      PrimFloat.ltb 0 T = true /\ m <> []
      /\ forall (h : Host) (job_id : string) (caps : list string),
           let r := planned h m job_id T caps in
           snd r = None
           /\ PrimFloat.ltb T (fsum (map (@seg_duration) (fst r))) = true)
  /\ (forall (h : Host) (m : PyDict) (voice job_id : string)
             (target : option float) (caps : list string) (T : float)
             (log0 : list Event),
         total_duration h target voice [] = (inr T, log0) ->
         PrimFloat.ltb 0 T = true -> m <> [] ->
         let segs := fst (planned h m job_id T caps) in
         (exists tail,
             snd (create_video_from_prompts h m voice job_id target caps [])
             = (log0 ++ render_events segs (outcomes h log0 segs) ++ tail)%list)
         /\ forall seg, In seg segs ->
              exists p images,
                lookup m p = Some images
                /\ seg_duration seg
                   = duration_per_image (duration_per_prompt_of T m)
                       (List.length images)
                /\ nth_error (seg_cmd seg) 10 = Some "-t"
                /\ nth_error (seg_cmd seg) 11
                   = Some (str_float h (seg_duration seg))).
Proof.
  split.
  - exists 1%float, Sample.crowded_scene.
    split; [reflexivity|]. split; [discriminate|].
    intros h job_id caps r.
    destruct (crowded_scene_planned h job_id caps) as [N D].
    split; [exact N|]. unfold r. rewrite D. reflexivity.
  - intros h m voice job_id target caps T log0 E P M segs. split.
    + apply create_video_renders_planned; auto using positive_nonzero.
    + intros seg Hin. apply planned_segment in Hin.
      destruct Hin as [p images t _ Hl _ _ Hs].
      apply segment_fields in Hs as (_ & _ & _ & Hd & _ & _ & _ & _ & Hc).
      exists p, images. split; [exact Hl|]. split; [exact Hd|].
      rewrite Hc, Hd. split; reflexivity.
Qed.

Lemma floor_drift_is_rendered_witness :
  let h := Sample.host [] (Some 1%float) in
  let segs := fst (planned h Sample.crowded_scene "job" 1 Sample.captions) in
  List.length segs = 3%nat
  /\ fsum (map (@seg_duration) segs) = 1.5%float
  /\ Forall (fun seg => nth_error (seg_cmd seg) 10 = Some "-t"
                        /\ nth_error (seg_cmd seg) 11 = Some "0.5") segs.
Proof.
  intros h segs.
  split; [vm_compute; reflexivity|]. split; [vm_compute; reflexivity|].
  apply Forall_forall. intros seg Hin.
  destruct (proj2 floor_drift_is_rendered h Sample.crowded_scene "voice.mp3"
              "job" None Sample.captions 1%float
              [Probe (ffprobe_cmd h "voice.mp3") (Some 1%float)]
              ltac:(vm_compute; reflexivity) ltac:(vm_compute; reflexivity)
              ltac:(discriminate)) as [_ A].
  destruct (A seg Hin) as (p & images & _ & _ & Ht & Hv).
  split; [exact Ht|]. rewrite Hv. f_equal.
  vm_compute in Hin.
  destruct Hin as [<-|[<-|[<-|[]]]]; vm_compute; reflexivity.
Defined.

(* ================================================================== *)
(** * Effect variants when all scenes hold the same number of images *)
(* ================================================================== *)

Section EvenScenes.
Variable h : Host.

Lemma image_segments_positions (job_id : string) (i k : nat) (d : float)
      (c : string) (imgs : list string) :
  forall start,
    snd (image_segments h job_id i k d c (Py.enumerate start imgs)) = None ->
    List.length (fst (image_segments h job_id i k d c (Py.enumerate start imgs)))
    = List.length imgs
    /\ forall n seg,
         nth_error (fst (image_segments h job_id i k d c
                           (Py.enumerate start imgs))) n = Some seg ->
         seg_effect seg = effect_cycle i k (start + n).
Proof.
  induction imgs as [|img rest IH]; intros start; simpl.
  - intros _. split; [reflexivity|]. intros [|n] seg E; discriminate.
  - destruct (segment h job_id i k d c start img) as [e|s0] eqn:Sg; simpl;
      [discriminate|].
    intros N. destruct (IH (S start) N) as [L P]. split; [congruence|].
    intros [|n] seg E; simpl in E.
    + injection E as <-.
      apply segment_fields in Sg as (_ & _ & _ & _ & _ & He & _).
      rewrite Nat.add_0_r. exact He.
    + rewrite (P n seg E). f_equal. lia.
Qed.

Lemma scenes_segments_positions (m : PyDict) (job_id : string) (dpp : float)
      (caps : list string) (k : nat) (ps : list Z) :
  (forall p images, In p ps -> lookup m p = Some images ->
                    List.length images = k) ->
  forall start,
    snd (scenes_segments h m job_id dpp caps (Py.enumerate start ps)) = None ->
    forall n seg,
      nth_error (fst (scenes_segments h m job_id dpp caps
                        (Py.enumerate start ps))) n = Some seg ->
      seg_effect seg = ((start * k + n) mod 3)%nat.
Proof.
  intros U. induction ps as [|p rest IH]; intros start; simpl.
  - intros _ [|n] seg E; discriminate.
  - destruct (scene_segments h m job_id dpp caps (start, p))
      as [segs [e|]] eqn:E; simpl; [discriminate|].
    intros N n seg Hn.
    assert (IH' := IH (fun q images Hq => U q images (or_intror Hq))
                      (S start) N).
    assert (L : List.length segs = k
                /\ forall n seg, nth_error segs n = Some seg ->
                     seg_effect seg = effect_cycle start k n).
    { unfold scene_segments in E. simpl in E.
      destruct (lookup m p) as [[|img0 images]|] eqn:Lk.
      - injection E as <-. split.
        + apply (U p []); [left; reflexivity | exact Lk].
        + intros [|?] ? X; discriminate.
      - destruct (current_scene_text p caps) as [e|t]; [discriminate|].
        assert (K : List.length (img0 :: images) = k)
          by (apply (U p); [left; reflexivity | exact Lk]).
        rewrite K in E.
        pose proof (image_segments_positions job_id start k
                      (duration_per_image dpp k) (caption_text_of h t)
                      (img0 :: images) 0) as P.
        rewrite E in P. destruct (P eq_refl) as [Len Pos].
        split; [simpl fst in Len; congruence | exact Pos].
      - discriminate. }
    destruct L as [L Pos].
    destruct (Nat.lt_ge_cases n (List.length segs)) as [Lt|Ge].
    + rewrite nth_error_app1 in Hn by exact Lt. apply (Pos n seg Hn).
    + rewrite nth_error_app2 in Hn by exact Ge.
      rewrite (IH' _ seg Hn). rewrite L in *.
      replace (S start * k + (n - k))%nat with (start * k + n)%nat; [reflexivity|].
      simpl. lia.
Qed.

(** When every scene of the map holds the same number of images, and the
    loops run to their end, the segment at cumulative position [n] has
    the variant [n mod 3]. *)
Lemma effect_variant_on_even_scenes (m : PyDict) (job_id : string)
      (T : float) (caps : list string) (k : nat) :
  (forall p images, lookup m p = Some images -> List.length images = k) ->
  snd (planned h m job_id T caps) = None ->
  forall n seg,
    nth_error (fst (planned h m job_id T caps)) n = Some seg ->
    seg_effect seg = (n mod 3)%nat.
Proof.
  intros U N n seg Hn. unfold planned in *.
  rewrite (scenes_segments_positions m job_id _ caps k
             (Py.sorted (keys m)) (fun p images _ => U p images) 0 N n seg Hn).
  reflexivity.
Qed.

End EvenScenes.

(** The six images of three full scenes get the variants 0,1,2,0,1,2. *)
Lemma effect_variant_on_three_full_scenes :
  map (@seg_effect)
      (fst (planned (Sample.host [] None) Sample.three_scenes "job" 30
              Sample.captions))
  = [0; 1; 2; 0; 1; 2]%nat.
Proof. vm_compute. reflexivity. Qed.

(* ================================================================== *)
(** * File numbers below 2^53 *)
(* ================================================================== *)

Section ExactQuotient.
Local Open Scope Z_scope.

Lemma digits2_pos_bounds (m : positive) :
  2 ^ (Z.pos (digits2_pos m) - 1) <= Z.pos m < 2 ^ Z.pos (digits2_pos m).
Proof.
  induction m as [p IH|p IH|]; cbn [digits2_pos].
  - rewrite Pos2Z.inj_succ.
    replace (Z.succ (Z.pos (digits2_pos p)) - 1) with (Z.succ (Z.pos (digits2_pos p) - 1)) by lia.
    rewrite !Z.pow_succ_r by lia. lia.
  - rewrite Pos2Z.inj_succ.
    replace (Z.succ (Z.pos (digits2_pos p)) - 1) with (Z.succ (Z.pos (digits2_pos p) - 1)) by lia.
    rewrite !Z.pow_succ_r by lia. lia.
  - simpl. lia.
Qed.

Lemma iter_xO (m k : positive) :
  Z.pos (Pos.iter xO m k) = Z.pos m * 2 ^ Z.pos k
  /\ digits2_pos (Pos.iter xO m k) = (digits2_pos m + k)%positive.
Proof.
  induction k as [|k IH] using Pos.peano_ind.
  - simpl. split; [lia|]. rewrite Pos.add_1_r. reflexivity.
  - rewrite Pos.iter_succ. destruct IH as [V D]. split.
    + rewrite Pos2Z.inj_xO, V, Pos2Z.inj_succ, Z.pow_succ_r by lia. lia.
    + cbn [digits2_pos]. rewrite D. lia.
Qed.

Lemma binary_round_exact (m : positive) :
  Z.pos m < 2 ^ 53 ->
  exists mz ez,
    binary_round prec emax false m (-1) = S754_finite false mz ez
    /\ -53 <= ez < 0
    /\ Z.pos mz = Z.pos m * 2 ^ (- ez - 1).
Proof.
  intros B.
  pose proof (digits2_pos_bounds m) as [Lo Hi].
  assert (D : Z.pos (digits2_pos m) <= 53).
  { destruct (Z.le_gt_cases (Z.pos (digits2_pos m)) 53) as [L|G]; [exact L|].
    exfalso. assert (2 ^ 53 <= 2 ^ (Z.pos (digits2_pos m) - 1)) by (apply Z.pow_le_mono_r; lia). lia. }
  set (d := Z.pos (digits2_pos m)) in *.
  assert (exists mz, shl_align m (-1) (fexp prec emax (d + -1)) = (mz, d - 54)
             /\ Z.pos mz = Z.pos m * 2 ^ (53 - d) /\ Z.pos (digits2_pos mz) = 53) as (mz & SA & V & DZ).
  { unfold shl_align, fexp, emin, prec, emax.
    replace (Z.max (d + -1 - 53) (3 - 1024 - 53)) with (d - 54) by lia.
    destruct (d - 54 - -1) as [|q|q] eqn:Q.
    - exists m. assert (d = 53) by lia. split; [f_equal; lia|]. split; [|fold d; lia].
      replace (53 - d) with 0 by lia. simpl. lia.
    - lia.
    - exists (Pos.iter xO m q). destruct (iter_xO m q) as [V' D']. split; [reflexivity|].
      split.
      + rewrite V'. f_equal. f_equal. lia.
      + rewrite D'. rewrite Pos2Z.inj_add. fold d. lia. }
  exists mz, (d - 54).
  split; [|split; [lia|rewrite V; f_equal; f_equal; lia]].
  unfold binary_round. fold d. rewrite SA.
  unfold binary_round_aux, shr_fexp.
  cbn [Zdigits2 shr_record_of_loc]. rewrite DZ.
  unfold fexp, emin, prec, emax.
  replace (Z.max (53 + (d - 54) - 53) (3 - 1024 - 53) - (d - 54)) with 0 by lia.
  cbn [shr shr_m loc_of_shr_record round_nearest_even Zdigits2 shr_record_of_loc].
  rewrite DZ.
  replace (Z.max (53 + (d - 54) - 53) (3 - 1024 - 53) - (d - 54)) with 0 by lia.
  cbn [shr shr_m].
  destruct (d - 54 <=? 1024 - 53) eqn:E; [reflexivity|]. apply Z.leb_gt in E. lia.
Qed.

(** Below 2^53 the float quotient by 2 is exact, and the scene is the
    least integer at or above [n / 2]. *)
Lemma prompt_number_of_exact (n : Z) :
  0 <= n < 2 ^ 53 -> prompt_number_of n = inr (ceil_half n).
Proof.
  intros [N B]. destruct n as [|m|m]; [reflexivity| |lia].
  destruct (binary_round_exact m B) as (mz & ez & R & E & V).
  unfold prompt_number_of, Py.int_truediv_2, binary_normalize.
  rewrite R. unfold Py.bind_result, Py.ceil, Py.round_to_int.
  destruct (0 <=? ez) eqn:Le; [apply Z.leb_le in Le; lia|].
  f_equal. unfold ceil_half. f_equal.
  replace (- Z.pos mz) with ((- Z.pos m) * 2 ^ (- ez - 1)) by lia.
  replace (2 ^ (- ez)) with (2 * 2 ^ (- ez - 1)).
  - apply Z.div_mul_cancel_r; [lia|].
    apply Z.pow_nonzero; lia.
  - rewrite <- Z.pow_succ_r by lia. f_equal. lia.
Qed.

End ExactQuotient.

Section MapperBelow.

(** The scene of a file in exact arithmetic. *)
Lemma goes_to_exact (k : Z) (img : string) :
  (forall n, file_number_of img = Some n -> (n < 2 ^ 53)%Z) ->
  goes_to k img
  = match file_number_of img with
    | Some n => (ceil_half n =? k)%Z
    | None => false
    end.
Proof.
  intros B. unfold goes_to.
  destruct (file_number_of img) as [n|] eqn:F; [|reflexivity].
  rewrite prompt_number_of_exact; [reflexivity|].
  split; [apply (file_number_nonneg img); exact F | apply B; reflexivity].
Qed.

(** The loop on files whose numbers are all below 2^53: it ends, unless
    a name has more leading digits than [int] accepts, and then it raises
    [ValueError]. *)
Lemma map_loop_below (files : list string) :
  (forall img n, In img files -> file_number_of img = Some n ->
                 (n < 2 ^ 53)%Z) ->
  forall pm,
    if forallb int_accepts files
    then exists pm', map_loop pm files = inr pm'
    else map_loop pm files = inl Py.ValueError.
Proof.
  induction files as [|img rest IH]; intros B pm; cbn [forallb map_loop];
    [eauto|].
  assert (B' : forall x n, In x rest -> file_number_of x = Some n ->
                           (n < 2 ^ 53)%Z).
  { intros x n Hx. apply B. right. exact Hx. }
  rewrite map_step_eq.
  destruct (file_number_of img) as [n|] eqn:F.
  - destruct (int_accepts img); cbn [andb]; [|reflexivity].
    rewrite prompt_number_of_exact.
    + cbn [Py.bind_result]. apply IH. exact B'.
    + split; [apply (file_number_nonneg img); exact F|].
      apply (B img); [left; reflexivity | exact F].
  - rewrite (unnumbered_int_accepts img F). cbn [andb Py.bind_result].
    apply IH. exact B'.
Qed.

(** The mapper on files whose numbers are all below 2^53.  When no name
    has more leading digits than [int] accepts, it returns; the keys are
    strictly ascending; under key [k] are the files whose number [n] has
    [ceil(n / 2) = k], in the order they were passed in; the files
    without a leading number are under no key.  When a name has more
    leading digits than that (leading zeros counted), it raises
    [ValueError]. *)
Lemma mapper_exact_below_2_53 (files : list string) :
  (forall img n, In img files -> file_number_of img = Some n ->
                 (n < 2 ^ 53)%Z) ->
  ((forall img, In img files -> int_accepts img = true) ->
   exists m,
     map_images_by_prompt_number files = inr m
     /\ StronglySorted Z.lt (keys m)
     /\ forall k,
          images_of m k
          = filter (fun img => match file_number_of img with
                               | Some n => (ceil_half n =? k)%Z
                               | None => false
                               end) files)
  /\ ((exists img, In img files /\ int_accepts img = false) ->
      map_images_by_prompt_number files = inl Py.ValueError).
Proof.
  intros B. pose proof (map_loop_below files B []) as L. split.
  - intros A.
    rewrite (proj2 (forallb_forall int_accepts files) A) in L.
    destruct L as [pm L]. exists (sorted_items pm).
    assert (E : map_images_by_prompt_number files = inr (sorted_items pm)).
    { unfold map_images_by_prompt_number. rewrite L. reflexivity. }
    split; [exact E|].
    apply map_images_by_prompt_number_spec in E as (S & _ & _ & I).
    split; [exact S|]. intros k. rewrite I.
    apply filter_ext_in. intros img Hin. apply goes_to_exact.
    intros n. apply B. exact Hin.
  - intros (img & Hin & A).
    destruct (forallb int_accepts files) eqn:Fa.
    + rewrite forallb_forall in Fa. rewrite (Fa img Hin) in A. discriminate.
    + unfold map_images_by_prompt_number. rewrite L. reflexivity.
Qed.

End MapperBelow.

(* ================================================================== *)
(** * More on the scene splitter *)
(* ================================================================== *)

Section SplitterMore.
Import Py PyFacts.

Lemma has_break_app (a b : string) :
  has_break (a ++ b) = has_break a || has_break b.
Proof.
  induction a as [|c r IH]; simpl; [reflexivity|].
  rewrite IH, orb_assoc. reflexivity.
Qed.

Lemma re_split_fragments (s : string) :
  Forall (fun frag => has_break frag = false) (re_split s).
Proof.
  induction s as [|c r IH]; simpl; [repeat constructor|].
  destruct (is_break c) eqn:B.
  - destruct r as [|c' r']; [constructor; auto|].
    destruct (is_break c'); [exact IH | constructor; auto].
  - destruct (re_split r) as [|p ps].
    + repeat constructor. simpl. rewrite B. reflexivity.
    + inversion IH as [|? ? Hp Hps]; subst. constructor; [|exact Hps].
      simpl. rewrite B, Hp. reflexivity.
Qed.

Lemma re_split_nonempty (s : string) : re_split s <> [].
Proof.
  induction s as [|c r IH]; simpl; [discriminate|].
  destruct (is_break c).
  - destruct r as [|c' r']; [discriminate|].
    destruct (is_break c'); [exact IH | discriminate].
  - destruct (re_split r); discriminate.
Qed.

Lemma re_split_concat (s : string) :
  String.concat EmptyString (re_split s) = without_breaks s.
Proof.
  induction s as [|c r IH]; [reflexivity|].
  cbn [re_split without_breaks]. destruct (is_break c) eqn:B.
  - destruct r as [|c' r'].
    + reflexivity.
    + destruct (is_break c'); [exact IH|].
      rewrite concat_empty_cons. exact IH.
  - destruct (re_split r) as [|p ps] eqn:R.
    + exfalso. exact (re_split_nonempty r R).
    + rewrite concat_empty_cons in *. simpl. rewrite IH. reflexivity.
Qed.

(** The split of the story text loses nothing but the delimiters: no
    fragment holds a newline or a period, and the fragments put end to
    end are the text with its newlines and periods taken out. *)
Theorem re_split_loses_only_delimiters (story : string) :
  Forall (fun frag => has_break frag = false) (re_split story)
  /\ String.concat EmptyString (re_split story) = without_breaks story.
Proof. split; [apply re_split_fragments | apply re_split_concat]. Qed.

Lemma has_break_lstrip (s : string) :
  has_break s = false -> has_break (lstrip s) = false.
Proof.
  induction s as [|c r IH]; simpl; [auto|].
  intros H. apply orb_false_iff in H as [Hc Hr].
  destruct (isspace c); [auto|]. simpl. rewrite Hc, Hr. reflexivity.
Qed.

Lemma has_break_rstrip (s : string) :
  has_break s = false -> has_break (rstrip s) = false.
Proof.
  induction s as [|c r IH]; simpl; [auto|].
  intros H. apply orb_false_iff in H as [Hc Hr].
  destruct (isspace c && is_empty (rstrip r)); [reflexivity|].
  simpl. rewrite Hc, (IH Hr). reflexivity.
Qed.

(** A scene of the split step is trimmed already, not empty, and holds
    neither a newline nor a period. *)
Theorem split_scene_is_clean (story sc : string) :
  In sc (split_scenes story) ->
  strip sc = sc /\ sc <> EmptyString /\ has_break sc = false.
Proof.
  intros H. apply in_split_scenes in H as (frag & Hin & B & _ & E).
  subst sc. split; [apply strip_idempotent|]. split.
  - intros E. apply strip_empty_iff in E. congruence.
  - unfold strip. apply has_break_rstrip, has_break_lstrip.
    pose proof (re_split_fragments story) as F.
    rewrite Forall_forall in F. auto.
Qed.

(** No scene the splitter returns is blank, the fallback scene
    included. *)
Theorem scene_texts_not_blank (story sc : string) :
  In sc (scene_texts (generate_prompts_from_story story)) ->
  blank sc = false.
Proof.
  simpl. unfold scenes_of.
  destruct (split_scenes story) as [|s0 rest] eqn:E.
  - rewrite truthy_strip. destruct (blank story) eqn:B; simpl;
      [contradiction|].
    intros [<-|[]]. exact B.
  - rewrite <- E. intros H.
    apply in_split_scenes in H as (frag & _ & B & _ & ->).
    destruct (blank (strip frag)) eqn:BS; [|reflexivity].
    apply strip_empty_iff in BS. rewrite strip_idempotent in BS.
    apply strip_empty_iff in BS. congruence.
Qed.

End SplitterMore.

Lemma split_scene_is_clean_witness :
  Py.strip "He falls" = "He falls" /\ "He falls" <> EmptyString
  /\ has_break "He falls" = false.
Proof.
  apply (split_scene_is_clean "A hero rises. He falls. He wins.").
  vm_compute. auto.
Defined.

Lemma scene_texts_not_blank_witness :
  Py.blank " Hi " = false /\ Py.blank "He wins" = false.
Proof.
  split.
  - apply (scene_texts_not_blank " Hi "). vm_compute. auto.
  - apply (scene_texts_not_blank "A hero rises. He falls. He wins.").
    vm_compute. auto.
Defined.

(* ================================================================== *)
(** * More on the mapper *)
(* ================================================================== *)

Section MapperMore.

Lemma map_loop_numbers (files : list string) :
  forall pm pm',
    map_loop pm files = inr pm' ->
    forall img n, In img files -> file_number_of img = Some n ->
                  exists k, prompt_number_of n = inr k.
Proof.
  induction files as [|x rest IH]; intros pm pm' E img n Hin F;
    [contradiction|].
  simpl in E. rewrite map_step_eq in E.
  destruct Hin as [->|Hin].
  - rewrite F in E. destruct (int_accepts img); [|discriminate].
    destruct (prompt_number_of n) as [e|k]; [discriminate|].
    eauto.
  - destruct (file_number_of x) as [nx|].
    + destruct (int_accepts x); [|discriminate].
      destruct (prompt_number_of nx) as [e|k]; [discriminate|].
      simpl in E. exact (IH _ _ E img n Hin F).
    + simpl in E. exact (IH _ _ E img n Hin F).
Qed.

(** When the mapper returns, the keys of its map are in strictly
    ascending order, and the list under a key holds the input files that
    the loop put under that key, in the order of the input. *)
Theorem mapper_groups_in_input_order (files : list string) (m : PyDict) :
  map_images_by_prompt_number files = inr m ->
  StronglySorted Z.lt (keys m)
  /\ forall k, images_of m k = filter (goes_to k) files.
Proof.
  intros E. apply map_images_by_prompt_number_spec in E as (S' & _ & _ & I).
  auto.
Qed.

(** When the mapper returns: no key holds an empty list; a file with a
    leading number is listed under exactly one key; a file without one
    is listed under none. *)
Theorem mapper_lists_each_numbered_file_once (files : list string)
        (m : PyDict) :
  map_images_by_prompt_number files = inr m ->
  (forall k l, lookup m k = Some l -> l <> [])
  /\ (forall img, In img files -> numbered img = true ->
        exists k, In img (images_of m k)
                  /\ forall k', In img (images_of m k') -> k' = k)
  /\ (forall img k, numbered img = false -> ~ In img (images_of m k)).
Proof.
  intros E.
  pose proof (map_images_by_prompt_number_spec files m E) as (_ & _ & K & I).
  split; [|split].
  - intros k l L.
    assert (Hk : In k (keys m)) by (apply in_keys_lookup; eauto).
    apply K in Hk as (img & Hin & G).
    assert (X : In img (images_of m k)) by (rewrite I; apply filter_In; auto).
    unfold images_of in X. rewrite L in X. intros ->. contradiction.
  - intros img Hin N. unfold numbered in N.
    destruct (file_number_of img) as [n|] eqn:F; [|discriminate].
    unfold map_images_by_prompt_number in E.
    destruct (map_loop [] files) as [e|pm] eqn:L; [discriminate|].
    destruct (map_loop_numbers files [] pm L img n Hin F) as [k P].
    exists k. split.
    + rewrite I. apply filter_In. split; [exact Hin|].
      unfold goes_to. rewrite F, P. apply Z.eqb_refl.
    + intros k' H. rewrite I in H. apply filter_In in H as [_ G].
      unfold goes_to in G. rewrite F, P in G. apply Z.eqb_eq in G. auto.
  - intros img k N H. rewrite I in H. apply filter_In in H as [_ G].
    unfold goes_to in G. unfold numbered in N.
    destruct (file_number_of img); discriminate.
Qed.

Lemma map_loop_filter_numbered (files : list string) :
  forall pm, map_loop pm (filter numbered files) = map_loop pm files.
Proof.
  induction files as [|x rest IH]; intros pm; [reflexivity|].
  cbn [filter]. unfold numbered at 1.
  destruct (file_number_of x) as [n|] eqn:F.
  - cbn [map_loop]. destruct (map_step pm x) as [e|pm1]; [reflexivity|].
    simpl. apply IH.
  - cbn [map_loop]. rewrite map_step_eq, F. simpl. apply IH.
Qed.

(** The files without a leading number have no effect on the result:
    the mapper gives the same map, or raises the same exception, with
    and without them. *)
Theorem mapper_ignores_unnumbered_files (files : list string) :
  map_images_by_prompt_number (filter numbered files)
  = map_images_by_prompt_number files.
Proof.
  unfold map_images_by_prompt_number. rewrite map_loop_filter_numbered.
  reflexivity.
Qed.

End MapperMore.

Lemma mapper_groups_in_input_order_witness :
  StronglySorted Z.lt [1; 2]%Z
  /\ forall k,
       images_of [(1%Z, ["2_x.png"; "1_x.png"]); (2%Z, ["4_x.png"])] k
       = filter (goes_to k) ["4_x.png"; "2_x.png"; "notes.txt"; "1_x.png"].
Proof.
  apply (mapper_groups_in_input_order
           ["4_x.png"; "2_x.png"; "notes.txt"; "1_x.png"]
           [(1%Z, ["2_x.png"; "1_x.png"]); (2%Z, ["4_x.png"])]).
  vm_compute. reflexivity.
Defined.

Lemma mapper_lists_each_numbered_file_once_witness :
  exists k, In "2_x.png" (images_of [(1%Z, ["2_x.png"; "1_x.png"])] k)
            /\ forall k', In "2_x.png"
                            (images_of [(1%Z, ["2_x.png"; "1_x.png"])] k') ->
                          k' = k.
Proof.
  apply (proj1 (proj2 (mapper_lists_each_numbered_file_once
                         ["2_x.png"; "notes.txt"; "1_x.png"]
                         [(1%Z, ["2_x.png"; "1_x.png"])]
                         ltac:(vm_compute; reflexivity))));
    [left; reflexivity | reflexivity].
Defined.

Lemma mapper_exact_below_2_53_witness :
  (exists m,
     map_images_by_prompt_number ["3_x.png"; "1_x.png"; "x.png"; "2_x.png"]
     = inr m
     /\ StronglySorted Z.lt (keys m)
     /\ forall k,
          images_of m k
          = filter (fun img => match file_number_of img with
                               | Some n => (ceil_half n =? k)%Z
                               | None => false
                               end)
              ["3_x.png"; "1_x.png"; "x.png"; "2_x.png"])
  /\ file_number_of Sample.padded_name = Some 1%Z
  /\ map_images_by_prompt_number [Sample.padded_name] = inl Py.ValueError.
Proof.
  split; [|split].
  - apply (proj1 (mapper_exact_below_2_53
                    ["3_x.png"; "1_x.png"; "x.png"; "2_x.png"]
                    ltac:(intros img n [<-|[<-|[<-|[<-|[]]]]] F;
                          vm_compute in F; try discriminate;
                          injection F as <-; reflexivity))).
    intros img [<-|[<-|[<-|[<-|[]]]]]; vm_compute; reflexivity.
  - vm_compute. reflexivity.
  - apply (proj2 (mapper_exact_below_2_53 [Sample.padded_name]
                    ltac:(intros img n [<-|[]] F; vm_compute in F;
                          injection F as <-; reflexivity))).
    exists Sample.padded_name. split; [left; reflexivity|].
    vm_compute. reflexivity.
Defined.

(* ================================================================== *)
(** * More on the pipeline *)
(* ================================================================== *)

Section PipelineMore.
Variable h : Host.

(** ** The floor *)

Lemma max_at_least_half (x : float) :
  PrimFloat.leb 0.5 (Py.max 0.5 x) = true.
Proof.
  unfold Py.max. destruct (PrimFloat.ltb 0.5 x) eqn:L; [|reflexivity].
  rewrite leb_spec. rewrite ltb_spec in L. unfold SFltb in L. unfold SFleb.
  destruct (SFcompare (Prim2SF 0.5) (Prim2SF x)) as [[| |]|];
    try discriminate; reflexivity.
Qed.

(** Whatever the timing basis is (small, negative, not a number), every
    segment the loops reach has a duration of at least 0.5 s: the
    comparison [0.5 <= duration] holds, so the duration is not NaN
    either. *)
Theorem planned_duration_at_least_floor (m : PyDict) (job_id : string)
        (T : float) (caps : list string) (seg : Segment) :
  In seg (fst (planned h m job_id T caps)) ->
  PrimFloat.leb 0.5 (seg_duration seg) = true.
Proof.
  intros Hin. apply planned_segment in Hin.
  destruct Hin as [p images t _ _ _ _ Hs].
  apply segment_fields in Hs as (_ & _ & _ & Hd & _).
  rewrite Hd. apply max_at_least_half.
Qed.

(** ** The kinds of events *)

Lemma probes_are_not_removes (log : list Event) :
  Forall is_probe log -> Forall (fun ev => ~ is_remove ev) log.
Proof.
  intros F. eapply Forall_impl; [|exact F].
  intros [] P; simpl in *; auto.
Qed.

Lemma render_events_are_runs (segs : list Segment) (oks : list bool) :
  Forall is_run (render_events segs oks).
Proof.
  unfold render_events. apply Forall_forall. intros ev H.
  apply in_map_iff in H as (so & <- & _). exact I.
Qed.

Lemma runs_are_not_removes (log : list Event) :
  Forall is_run log -> Forall (fun ev => ~ is_remove ev) log.
Proof.
  intros F. eapply Forall_impl; [|exact F].
  intros [] P; simpl in *; auto.
Qed.

Lemma runs_are_not_probes (log : list Event) :
  Forall is_run log -> Forall (fun ev => ~ is_probe ev) log.
Proof.
  intros F. eapply Forall_impl; [|exact F].
  intros [] P; simpl in *; auto.
Qed.

Lemma removes_are_not_probes (log : list Event) :
  Forall is_remove log -> Forall (fun ev => ~ is_probe ev) log.
Proof.
  intros F. eapply Forall_impl; [|exact F].
  intros [] P; simpl in *; auto.
Qed.

(** ** Raising and cleaning up *)

(** The run ends in one of two ways.  If the function raises, at
    whatever step, it has removed no file: the manifest, the
    concatenated video and the segments written so far are left behind.
    If it returns, it returns the final output path, after a
    concatenation and an audio step that both succeeded; a failed
    removal does not change that. *)
Theorem raise_removes_nothing (m : PyDict) (voice job_id : string)
        (target : option float) (caps : list string) :
  let run := create_video_from_prompts h m voice job_id target caps [] in
  (forall e, fst run = inl e ->
             Forall (fun ev => ~ is_remove ev) (snd run))
  /\ (forall path, fst run = inr path ->
        path = final_output_path_of h job_id
        /\ In (Run (cmd_concat h job_id) true) (snd run)
        /\ In (Run (cmd_add_audio h job_id voice) true) (snd run)).
Proof.
  destruct (total_duration_run h target voice []) as (T & log0 & E & P).
  simpl in E. cbv zeta.
  rewrite (create_video_run h m voice job_id target caps T [] log0 E).
  pose proof (probes_are_not_removes log0 P) as P'.
  destruct (PrimFloat.eqb T 0); [split; [intros; exact P' | discriminate]|].
  destruct (List.length m =? 0)%nat;
    [split; [intros; exact P' | discriminate]|].
  cbv zeta.
  set (r := planned h m job_id T caps).
  set (oks := outcomes h log0 (fst r)).
  assert (R : Forall (fun ev => ~ is_remove ev)
                (log0 ++ render_events (fst r) oks)).
  { apply Forall_app. split; [exact P'|].
    apply runs_are_not_removes, render_events_are_runs. }
  destruct (snd r) as [e|]; [split; [intros; exact R | discriminate]|].
  match goal with
  | |- context [assemble h ?j ?v ?a ?l] =>
      destruct (assemble_run h j v a l) as (w & c & a' & evs & A & _);
      rewrite A
  end.
  unfold assemble_result.
  destruct w; simpl;
    [|split; [intros; apply Forall_app; split;
               [exact R | repeat constructor; auto]
             | discriminate]].
  destruct c; simpl;
    [|split; [intros; apply Forall_app; split;
               [exact R | repeat constructor; auto]
             | discriminate]].
  destruct a'; simpl;
    [|split; [intros; apply Forall_app; split;
               [exact R | repeat constructor; auto]
             | discriminate]].
  split; [discriminate|]. intros path Hp. injection Hp as <-.
  split; [reflexivity|]. split; apply in_or_app; right; simpl; auto.
Qed.

(** ** The timing basis *)

Lemma no_probe_after (m : PyDict) (voice job_id : string)
      (target : option float) (caps : list string) (T : float)
      (log0 : list Event) :
  total_duration h target voice [] = (inr T, log0) ->
  exists rest,
    snd (create_video_from_prompts h m voice job_id target caps [])
    = (log0 ++ rest)%list
    /\ Forall (fun ev => ~ is_probe ev) rest.
Proof.
  intros E.
  rewrite (create_video_run h m voice job_id target caps T [] log0 E).
  destruct (PrimFloat.eqb T 0);
    [exists []; rewrite app_nil_r; split; [reflexivity | constructor]|].
  destruct (List.length m =? 0)%nat;
    [exists []; rewrite app_nil_r; split; [reflexivity | constructor]|].
  cbv zeta.
  set (r := planned h m job_id T caps).
  set (oks := outcomes h log0 (fst r)).
  pose proof (runs_are_not_probes _ (render_events_are_runs (fst r) oks)) as R.
  destruct (snd r) as [e|];
    [exists (render_events (fst r) oks); split; [reflexivity | exact R]|].
  match goal with
  | |- context [assemble h ?j ?v ?a ?l] =>
      destruct (assemble_run h j v a l) as (w & c & a' & evs & A & F);
      rewrite A
  end.
  apply removes_are_not_probes in F.
  unfold assemble_result.
  destruct w, c, a'; simpl; rewrite <- app_assoc; eexists;
    (split; [reflexivity|]); apply Forall_app; (split; [exact R|]);
    repeat (constructor; [simpl; auto|]); try exact F; constructor.
Qed.

(** A target duration that is not zero takes precedence: the audio file
    is never probed, at any step of the run.  A target of zero minutes
    counts as no target at all: the run is the one without a target. *)
Theorem target_duration_precedence (m : PyDict) (voice job_id : string)
        (caps : list string) (t : float) :
  (PrimFloat.eqb t 0 = false ->
   Forall (fun ev => ~ is_probe ev)
     (snd (create_video_from_prompts h m voice job_id (Some t) caps [])))
  /\ (PrimFloat.eqb t 0 = true ->
      create_video_from_prompts h m voice job_id (Some t) caps []
      = create_video_from_prompts h m voice job_id None caps []).
Proof.
  split; intros Z.
  - assert (E : total_duration h (Some t) voice []
                = (inr (t * Py.float_of_int 60)%float, [])).
    { unfold total_duration. rewrite Z. reflexivity. }
    destruct (no_probe_after m voice job_id (Some t) caps _ _ E)
      as (rest & -> & F).
    exact F.
  - unfold create_video_from_prompts, total_duration. rewrite Z. reflexivity.
Qed.

(** Without a target duration (none, or zero), a failed probe of the
    voice file makes the function raise the "Audio duration is 0" failure
    with the probe as its only action. *)
Theorem failed_probe_aborts (m : PyDict) (voice job_id : string)
        (target : option float) (caps : list string) :
  match target with
  | Some t => PrimFloat.eqb t 0 = true
  | None => True
  end ->
  probe_out h [] (ffprobe_cmd h voice) = None ->
  create_video_from_prompts h m voice job_id target caps []
  = (inl (Py.Exception no_duration_error),
     [Probe (ffprobe_cmd h voice) None]).
Proof.
  intros Ht Hp.
  assert (E : total_duration h target voice []
              = (inr 0%float, [Probe (ffprobe_cmd h voice) None])).
  { unfold total_duration, get_audio_duration.
    destruct target as [t|]; [rewrite Ht|]; rewrite Hp; reflexivity. }
  rewrite (create_video_run h m voice job_id target caps _ [] _ E).
  reflexivity.
Qed.

End PipelineMore.

Lemma planned_duration_at_least_floor_witness :
  Forall (fun seg => PrimFloat.leb 0.5 (seg_duration seg) = true)
    (fst (planned (Sample.host [] None) Sample.crowded_scene "job"
            (-3)%float Sample.captions)).
Proof.
  apply Forall_forall. intros seg Hin.
  exact (planned_duration_at_least_floor (Sample.host [] None)
           Sample.crowded_scene "job" (-3)%float Sample.captions seg Hin).
Defined.

Lemma raise_removes_nothing_witness :
  let h := Sample.host ["/app/output/video_no_audio_job.mp4"]
             (Some 30%float) in
  let run := create_video_from_prompts h Sample.three_scenes "voice.mp3"
               "job" None Sample.captions [] in
  fst run = inl (Py.CalledProcessError (cmd_concat h "job"))
  /\ Forall (fun ev => ~ is_remove ev) (snd run).
Proof.
  intros h run.
  assert (E : fst run = inl (Py.CalledProcessError (cmd_concat h "job")))
    by (vm_compute; reflexivity).
  split; [exact E|].
  exact (proj1 (raise_removes_nothing h Sample.three_scenes "voice.mp3"
                  "job" None Sample.captions) _ E).
Defined.

Lemma target_duration_precedence_witness :
  let h := Sample.host [] (Some 30%float) in
  Forall (fun ev => ~ is_probe ev)
    (snd (create_video_from_prompts h Sample.three_scenes "voice.mp3" "job"
            (Some 0.5%float) Sample.captions []))
  /\ create_video_from_prompts h Sample.three_scenes "voice.mp3" "job"
       (Some (-0)%float) Sample.captions []
     = create_video_from_prompts h Sample.three_scenes "voice.mp3" "job"
         None Sample.captions [].
Proof.
  intros h. split.
  - exact (proj1 (target_duration_precedence h Sample.three_scenes
                    "voice.mp3" "job" Sample.captions 0.5%float) eq_refl).
  - exact (proj2 (target_duration_precedence h Sample.three_scenes
                    "voice.mp3" "job" Sample.captions (-0)%float) eq_refl).
Defined.

Lemma failed_probe_aborts_witness :
  let h := Sample.host [] None in
  create_video_from_prompts h Sample.three_scenes "" "job"
    (Some 0%float) Sample.captions []
  = (inl (Py.Exception no_duration_error), [Probe (ffprobe_cmd h "") None]).
Proof.
  intros h.
  exact (failed_probe_aborts h Sample.three_scenes "" "job" (Some 0%float)
           Sample.captions eq_refl eq_refl).
Defined.

(* ================================================================== *)
(** * Scene numbers at or below zero *)
(* ================================================================== *)

Section NonPositiveScenes.

(** For a scene number [p <= 0] the caption guard always holds, and the
    index [p - 1] counts from the end of the caption list: the caption
    is the one at position [len + p - 1] when [p > -len], and the
    indexing raises [IndexError] when [p <= -len] (for an empty list:
    for every [p <= 0]). *)
Theorem caption_index_from_the_end (p : Z) (caps : list string) :
  (p <= 0)%Z ->
  let n := Z.of_nat (List.length caps) in
  ((p <= - n)%Z -> current_scene_text p caps = inl Py.IndexError)
  /\ ((- n < p)%Z ->
      exists text,
        nth_error caps (Z.to_nat (n + p - 1)) = Some text
        /\ current_scene_text p caps = inr text).
Proof.
  intros P n. unfold current_scene_text, Py.getitem. fold n.
  destruct (p - 1 <? n)%Z eqn:G; [|apply Z.ltb_ge in G; lia].
  destruct (0 <=? p - 1)%Z eqn:Z0; [apply Z.leb_le in Z0; lia|].
  split; intros H.
  - destruct (- n <=? p - 1)%Z eqn:L; [apply Z.leb_le in L; lia|].
    reflexivity.
  - destruct (- n <=? p - 1)%Z eqn:L; [|apply Z.leb_gt in L; lia].
    replace (n + (p - 1))%Z with (n + p - 1)%Z by lia.
    destruct (nth_error caps (Z.to_nat (n + p - 1))) as [text|] eqn:N.
    + exists text. auto.
    + apply nth_error_None in N. lia.
Qed.

Lemma fold_insert_keeps_least (ks : list Z) (k0 : Z) :
  Forall (fun k => k0 <= k)%Z ks ->
  forall acc,
    fold_left (fun a k => Py.insert_sorted k a) ks (k0 :: acc)
    = k0 :: fold_left (fun a k => Py.insert_sorted k a) ks acc.
Proof.
  induction ks as [|k rest IH]; intros F acc; [reflexivity|].
  inversion F as [|? ? Hk Hrest]; subst. simpl.
  destruct (k <? k0)%Z eqn:L; [apply Z.ltb_lt in L; lia|].
  apply IH. exact Hrest.
Qed.

(** A job whose images include one numbered 0, run without captions:
    the mapper puts the image under scene 0, the first scene; the
    caption guard holds for it, the empty caption list has no last
    entry, and the function raises [IndexError] before it renders
    anything. *)
Theorem scene_zero_without_captions_raises (h : Host)
        (files : list string) (m : PyDict) (img voice job_id : string)
        (target : option float) (T : float) (log0 : list Event) :
  map_images_by_prompt_number files = inr m ->
  In img files -> file_number_of img = Some 0%Z ->
  total_duration h target voice [] = (inr T, log0) ->
  PrimFloat.eqb T 0 = false ->
  create_video_from_prompts h m voice job_id target [] []
  = (inl Py.IndexError, log0).
Proof.
  intros E Hin F Ed Z.
  destruct (scene_zero_first files m img E Hin F) as (l & rest & -> & Hl & Pos).
  rewrite (create_video_run h _ voice job_id target [] T [] log0 Ed), Z.
  cbn [List.length Nat.eqb]. cbv zeta.
  assert (P : planned h ((0%Z, l) :: rest) job_id T []
              = ([], Some Py.IndexError)).
  { unfold planned. unfold Py.sorted. cbn [keys map fst fold_left].
    cbn [Py.insert_sorted].
    rewrite fold_insert_keeps_least.
    2:{ apply Forall_forall. intros k Hk. apply in_map_iff in Hk
          as (kv & <- & Hkv).
        rewrite Forall_forall in Pos. specialize (Pos kv Hkv). lia. }
    cbn [Py.enumerate scenes_segments]. unfold scene_segments.
    cbn [snd fst lookup Z.eqb].
    destruct l as [|i0 l']; [contradiction|]. reflexivity. }
  rewrite P. simpl. rewrite app_nil_r. reflexivity.
Qed.

End NonPositiveScenes.

Lemma caption_index_from_the_end_witness :
  current_scene_text (-1) Sample.captions = inr "He falls"
  /\ current_scene_text (-3) Sample.captions = inl Py.IndexError
  /\ current_scene_text 0 [] = inl Py.IndexError.
Proof.
  split; [|split].
  - destruct (proj2 (caption_index_from_the_end (-1) Sample.captions
                       ltac:(lia)) ltac:(simpl; lia)) as (text & N & C).
    vm_compute in N. injection N as <-. exact C.
  - exact (proj1 (caption_index_from_the_end (-3) Sample.captions
                    ltac:(lia)) ltac:(simpl; lia)).
  - exact (proj1 (caption_index_from_the_end 0 [] ltac:(lia))
             ltac:(simpl; lia)).
Defined.

Lemma scene_zero_without_captions_raises_witness :
  let h := Sample.host [] (Some 30%float) in
  create_video_from_prompts h [(0%Z, ["0_a.png"]); (1%Z, ["1_a.png"])]
    "voice.mp3" "job" None [] []
  = (inl Py.IndexError, [Probe (ffprobe_cmd h "voice.mp3") (Some 30%float)]).
Proof.
  intros h.
  apply (scene_zero_without_captions_raises h ["1_a.png"; "0_a.png"]
           [(0%Z, ["0_a.png"]); (1%Z, ["1_a.png"])] "0_a.png" "voice.mp3"
           "job" None 30%float);
    try (vm_compute; reflexivity).
  right. left. reflexivity.
Defined.

(* ================================================================== *)
(** * Colons in the caption, the voice file, jobs without images *)
(* ================================================================== *)

Section CaptionColons.

Lemma escaped_colons (s : string) :
  forall before, colons_escaped before (escaped s) = true.
Proof.
  induction s as [|c r IH]; intros before; [reflexivity|].
  cbn [escaped]. unfold escape_char.
  destruct (Ascii.eqb c "'") eqn:Q.
  - apply Ascii.eqb_eq in Q. subst c. cbn. apply IH.
  - destruct (Ascii.eqb c ":") eqn:C.
    + cbn. apply IH.
    + cbn [append colons_escaped]. rewrite C. apply IH.
Qed.

(** In the caption handed to the overlay filter no colon stands bare:
    each one comes right after a backslash, whatever the scene text and
    whatever lines the wrapper returns. *)
Theorem caption_has_no_bare_colon (h : Host) (scene_text : string) :
  colons_escaped false (caption_text_of h scene_text) = true.
Proof. rewrite caption_text_of_escaped. apply escaped_colons. Qed.

End CaptionColons.

Section VoiceFallback.

Lemma path_join_not_empty (a b : string) :
  b <> EmptyString -> Py.path_join a b <> EmptyString.
Proof.
  intros B. unfold Py.path_join.
  destruct (Py.startswith "/" b); [exact B|].
  destruct (Py.is_empty a || Py.endswith_char "/" a).
  - destruct a; simpl; [exact B | discriminate].
  - destruct a; simpl; discriminate.
Qed.

(** [generate_voice_fallback] signals a failed synthesis by the empty
    path and by nothing else: it returns the empty text exactly when the
    synthesis raised, and otherwise the path of the voice file of the
    job, which is never empty. *)
Theorem voice_path_empty_iff_failed (vh : VoiceHost)
        (text gender job_id : string) :
  let path := generate_voice_fallback vh text gender job_id in
  (path = EmptyString <->
   tts_save_ok vh text (voice_output_path vh job_id) = false)
  /\ (path <> EmptyString -> path = voice_output_path vh job_id).
Proof.
  cbv zeta. unfold generate_voice_fallback.
  assert (N : voice_output_path vh job_id <> EmptyString)
    by (apply path_join_not_empty; discriminate).
  destruct (tts_save_ok vh text (voice_output_path vh job_id)).
  - split; [split; [intros E; contradiction | discriminate] | reflexivity].
  - split; [split; reflexivity | intros X; contradiction].
Qed.

End VoiceFallback.

Section NoImages.

Lemma map_loop_unnumbered (files : list string) :
  (forall img, In img files -> numbered img = false) ->
  forall pm, map_loop pm files = inr pm.
Proof.
  induction files as [|x rest IH]; intros U pm; [reflexivity|].
  cbn [map_loop]. rewrite map_step_eq.
  pose proof (U x (or_introl eq_refl)) as N. unfold numbered in N.
  destruct (file_number_of x); [discriminate|]. simpl.
  apply IH. intros img Hin. apply U. right. exact Hin.
Qed.

(** When no image file has a leading number, the mapper returns the
    empty map, and the video creation on that map raises one of its two
    precondition failures having at most probed the audio: nothing is
    rendered. *)
Theorem unnumbered_files_give_nothing_to_render (h : Host)
        (files : list string) (voice job_id : string)
        (target : option float) (caps : list string) :
  (forall img, In img files -> numbered img = false) ->
  map_images_by_prompt_number files = inr []
  /\ exists e log0,
       create_video_from_prompts h [] voice job_id target caps []
       = (inl e, log0)
       /\ precondition_failure e /\ Forall is_probe log0.
Proof.
  intros U. split.
  - unfold map_images_by_prompt_number.
    rewrite (map_loop_unnumbered files U []). reflexivity.
  - destruct (total_duration_run h target voice []) as (T & log0 & E & P).
    simpl in E.
    rewrite (create_video_run h [] voice job_id target caps T [] log0 E).
    unfold precondition_failure.
    destruct (PrimFloat.eqb T 0); simpl; eauto 6.
Qed.

End NoImages.

Lemma unnumbered_files_give_nothing_to_render_witness :
  map_images_by_prompt_number ["cover.png"; "a/b/x_1.png"] = inr [].
Proof.
  apply (proj1 (unnumbered_files_give_nothing_to_render
                  (Sample.host [] None) ["cover.png"; "a/b/x_1.png"]
                  "voice.mp3" "job" None []
                  ltac:(intros img [<-|[<-|[]]]; reflexivity))).
Defined.

Lemma effect_variant_on_even_scenes_witness :
  let h := Sample.host [] None in
  Forall (fun nseg => seg_effect (snd nseg) = (fst nseg mod 3)%nat)
    (Py.enumerate 0
       (fst (planned h Sample.three_scenes "job" 30 Sample.captions))).
Proof.
  intros h. apply Forall_forall. intros [n seg] Hin.
  apply in_enumerate in Hin as [_ Hn]. rewrite Nat.sub_0_r in Hn.
  apply (effect_variant_on_even_scenes h Sample.three_scenes "job" 30%float
           Sample.captions 2).
  - intros p images L. unfold Sample.three_scenes in L. simpl in L.
    destruct (p =? 1)%Z; [injection L as <-; reflexivity|].
    destruct (p =? 2)%Z; [injection L as <-; reflexivity|].
    destruct (p =? 3)%Z; [injection L as <-; reflexivity | discriminate].
  - vm_compute. reflexivity.
  - exact Hn.
Defined.

(* ================================================================== *)
(** * Frame counts and the exceptions of the loops *)
(* ================================================================== *)

Section Frames.
Variable h : Host.

Lemma binary_round_aux_sign (mx ex : Z) :
  match binary_round_aux prec emax false mx ex loc_Exact with
  | S754_finite true _ _ => False
  | _ => True
  end.
Proof.
  unfold binary_round_aux.
  destruct (shr_fexp prec emax mx ex loc_Exact) as [mrs' e'].
  destruct (shr_fexp prec emax _ e' loc_Exact) as [mrs'' e''].
  destruct (shr_m mrs''); try exact I.
  destruct (e'' <=? emax - prec)%Z; exact I.
Qed.

Lemma truncation_nonneg (x : spec_float) (n : Z) :
  match x with S754_finite true _ _ => False | _ => True end ->
  Py.round_to_int false true x = inr n -> (0 <= n)%Z.
Proof.
  unfold Py.round_to_int.
  destruct x as [s|s| |s mm ee]; try discriminate.
  - intros _ E. injection E as <-. lia.
  - destruct s; [contradiction|]. intros _.
    assert (V : (0 < Z.pos mm)%Z) by lia.
    generalize dependent (Z.pos mm). intros v V.
    destruct (0 <=? ee)%Z eqn:Le; intros E; injection E as <-.
    + apply Z.leb_le in Le. apply Z.mul_nonneg_nonneg; [lia|].
      apply Z.pow_nonneg. lia.
    + apply Z.div_pos; [lia|]. apply Z.pow_pos_nonneg; lia.
Qed.

Lemma frames_of_floored_duration (x : float) (n : Z) :
  Py.int_of_float (Py.max 0.5 x * Py.float_of_int fps)%float = inr n ->
  (0 <= n)%Z.
Proof.
  unfold Py.int_of_float. rewrite mul_spec.
  pose proof (max_at_least_half x) as L. rewrite leb_spec in L.
  change (Prim2SF 0.5) with (S754_finite false 4503599627370496 (-53)) in L.
  change (Prim2SF (Py.float_of_int fps))
    with (S754_finite false 8444249301319680 (-48)).
  unfold SFleb in L.
  destruct (Prim2SF (Py.max 0.5 x)) as [s|s| |s mm ee];
    try (simpl in L; discriminate L).
  - destruct s; [simpl in L; discriminate L|].
    intros E. discriminate E.
  - destruct s; [simpl in L; discriminate L|]. intros E.
    refine (truncation_nonneg _ n _ E). apply binary_round_aux_sign.
Qed.

(** Every segment the loops reach has at least one frame: the frame
    count [int(duration * fps) + 1], by which the zoom and pan
    expressions divide, is never zero or negative. *)
Theorem planned_frames_positive (m : PyDict) (job_id : string) (T : float)
        (caps : list string) (seg : Segment) :
  In seg (fst (planned h m job_id T caps)) ->
  (1 <= seg_frames seg)%Z.
Proof.
  intros Hin. apply planned_segment in Hin.
  destruct Hin as [p images t _ _ _ _ Hs].
  apply segment_fields in Hs as (_ & _ & _ & _ & _ & _ & _ & Hf & _).
  unfold duration_per_image in Hf.
  apply frames_of_floored_duration in Hf. lia.
Qed.

End Frames.

Lemma planned_frames_positive_witness :
  Forall (fun seg => (1 <= seg_frames seg)%Z)
    (fst (planned (Sample.host [] None) Sample.three_scenes "job"
            30%float Sample.captions)).
Proof.
  apply Forall_forall. intros seg Hin.
  exact (planned_frames_positive (Sample.host [] None) Sample.three_scenes
           "job" 30%float Sample.captions seg Hin).
Defined.

Section LoopExceptions.
Variable h : Host.

Lemma fold_insert_sorted_perm (l : list Z) :
  forall acc,
    Permutation (fold_left (fun a k => Py.insert_sorted k a) l acc)
                (l ++ acc).
Proof.
  induction l as [|k ks IH]; intros acc; simpl; [reflexivity|].
  rewrite IH, insert_sorted_perm. symmetry. apply Permutation_middle.
Qed.

(** [sorted] keeps the elements of the list. *)
Lemma sorted_perm (l : list Z) : Permutation (Py.sorted l) l.
Proof.
  unfold Py.sorted. rewrite fold_insert_sorted_perm, app_nil_r. reflexivity.
Qed.

Lemma scenes_segments_exception (m : PyDict) (job_id : string) (dpp : float)
      (caps : list string) (ips : list (nat * Z)) (e : Py.PyExn) :
  (forall ip, In ip ips -> In (snd ip) (keys m)) ->
  snd (scenes_segments h m job_id dpp caps ips) = Some e ->
  (e = Py.IndexError
   /\ exists p, In p (keys m) /\ (p <= - Z.of_nat (List.length caps))%Z)
  \/ e = Py.OverflowError \/ e = Py.ValueError.
Proof.
  induction ips as [|[i p] rest IH]; intros K; simpl; [discriminate|].
  assert (Kp : In p (keys m)) by (apply (K (i, p)); left; reflexivity).
  assert (Krest : forall ip, In ip rest -> In (snd ip) (keys m))
    by (intros ip Hip; apply K; right; exact Hip).
  destruct (scene_segments h m job_id dpp caps (i, p)) as [segs [e'|]] eqn:E;
    simpl; [|exact (IH Krest)].
  intros E'. injection E' as ->.
  unfold scene_segments in E. simpl in E.
  destruct (lookup m p) as [[|img0 images]|] eqn:L.
  - discriminate.
  - destruct (current_scene_text p caps) as [e0|t] eqn:C.
    + injection E as _ <-. left.
      unfold current_scene_text, Py.getitem in C.
      destruct (p - 1 <? Z.of_nat (List.length caps))%Z eqn:G;
        [|discriminate].
      apply Z.ltb_lt in G.
      destruct (0 <=? p - 1)%Z eqn:Z0.
      * apply Z.leb_le in Z0.
        destruct (nth_error caps (Z.to_nat (p - 1))) eqn:N; [discriminate|].
        apply nth_error_None in N. lia.
      * destruct (- Z.of_nat (List.length caps) <=? p - 1)%Z eqn:Z1.
        -- apply Z.leb_le in Z1. apply Z.leb_gt in Z0.
           destruct (nth_error caps
                       (Z.to_nat (Z.of_nat (List.length caps) + (p - 1))))
             eqn:N; [discriminate|].
           apply nth_error_None in N. lia.
        -- apply Z.leb_gt in Z1. injection C as <-.
           split; [reflexivity|]. exists p. split; [exact Kp | lia].
    + right.
      apply (image_segments_exception h job_id i
               (List.length (img0 :: images))
               (duration_per_image dpp (List.length (img0 :: images)))
               (caption_text_of h t) (Py.enumerate 0 (img0 :: images))).
      rewrite E. reflexivity.
  - exfalso. apply in_keys_lookup in Kp as [l Hl]. congruence.
Qed.

(** What the loops can raise.  The look-up of a scene never fails, its
    key being one of the map's.  The caption indexing raises
    [IndexError] only for a scene number at or below minus the number of
    captions, so never for a map whose scene numbers start at 1.  All
    that is left is the conversion of an infinite or undefined duration
    to a frame count: [OverflowError] or [ValueError]. *)
Theorem loops_raise_only_on_index_or_conversion (m : PyDict)
        (job_id : string) (T : float) (caps : list string) (e : Py.PyExn) :
  snd (planned h m job_id T caps) = Some e ->
  (e = Py.IndexError
   /\ exists p, In p (keys m) /\ (p <= - Z.of_nat (List.length caps))%Z)
  \/ e = Py.OverflowError \/ e = Py.ValueError.
Proof.
  unfold planned. apply scenes_segments_exception.
  intros [i p] Hip. apply in_enumerate in Hip as [_ N].
  apply nth_error_In in N. simpl.
  apply (Permutation_in _ (sorted_perm (keys m))). exact N.
Qed.

End LoopExceptions.

Lemma loops_raise_only_on_index_or_conversion_witness :
  let h := Sample.host [] None in
  snd (planned h [((-2)%Z, ["a.png"])] "job" 30 ["one"; "two"])
  = Some Py.IndexError
  /\ exists p, In p (keys [((-2)%Z, ["a.png"])]) /\ (p <= -2)%Z.
Proof.
  intros h.
  assert (E : snd (planned h [((-2)%Z, ["a.png"])] "job" 30 ["one"; "two"])
              = Some Py.IndexError) by (vm_compute; reflexivity).
  split; [exact E|].
  destruct (loops_raise_only_on_index_or_conversion h _ _ _ _ _ E)
    as [[_ P]|[X|X]]; [exact P | discriminate X | discriminate X].
Defined.

(* ================================================================== *)
(** * The checks before the loops and the steps after them *)
(* ================================================================== *)

Section Assembly.
Variable h : Host.

(** ** The order of the scenes *)

Lemma insert_sorted_ascending (k : Z) (l : list Z) :
  StronglySorted Z.le l -> StronglySorted Z.le (Py.insert_sorted k l).
Proof.
  induction l as [|y ys IH]; simpl; intros Sl.
  - repeat constructor.
  - inversion Sl as [|? ? Sl' F]; subst.
    destruct (k <? y)%Z eqn:E.
    + apply Z.ltb_lt in E. constructor; [exact Sl|].
      constructor; [lia|].
      rewrite Forall_forall in *. intros x Hx. specialize (F x Hx). lia.
    + apply Z.ltb_ge in E. constructor; [apply IH; exact Sl'|].
      apply Forall_forall. intros x Hx.
      apply in_insert_sorted in Hx as [Hx|Hx]; [lia|].
      rewrite Forall_forall in F. auto.
Qed.

Lemma fold_insert_sorted_ascending (l : list Z) :
  forall acc,
    StronglySorted Z.le acc ->
    StronglySorted Z.le (fold_left (fun a k => Py.insert_sorted k a) l acc).
Proof.
  induction l as [|k ks IH]; intros acc Sa; simpl; [exact Sa|].
  apply IH, insert_sorted_ascending, Sa.
Qed.

(** [sorted] gives its argument in ascending order. *)
Lemma sorted_ascending (l : list Z) : StronglySorted Z.le (Py.sorted l).
Proof. apply fold_insert_sorted_ascending. constructor. Qed.

(** ** Scenes without images *)

Lemma lookup_empty_scene (m : PyDict) (p : Z) :
  Forall (fun scene => snd scene = []) m -> In p (keys m) ->
  lookup m p = Some [].
Proof.
  induction m as [|[k v] r IH]; simpl; intros F H; [contradiction|].
  inversion F as [|? ? Hv Fr]; subst. simpl in Hv. subst v.
  destruct (p =? k)%Z eqn:E; [reflexivity|].
  apply IH; [exact Fr|]. destruct H as [H|H]; [|exact H].
  apply Z.eqb_neq in E. congruence.
Qed.

Lemma empty_scenes_reach_nothing (m : PyDict) (job_id : string)
      (dpp : float) (caps : list string) (ips : list (nat * Z)) :
  Forall (fun scene => snd scene = []) m ->
  (forall ip, In ip ips -> In (snd ip) (keys m)) ->
  scenes_segments h m job_id dpp caps ips = ([], None).
Proof.
  intros F. induction ips as [|ip rest IH]; intros K; simpl; [reflexivity|].
  unfold scene_segments.
  rewrite (lookup_empty_scene m (snd ip) F) by (apply K; left; reflexivity).
  rewrite IH; [reflexivity|]. intros x Hx. apply K. right. exact Hx.
Qed.

Lemma empty_scenes_planned (m : PyDict) (job_id : string) (T : float)
      (caps : list string) :
  Forall (fun scene => snd scene = []) m ->
  planned h m job_id T caps = ([], None).
Proof.
  intros F. unfold planned. apply empty_scenes_reach_nothing; [exact F|].
  intros [i p] Hip. apply in_enumerate in Hip as [_ N].
  apply nth_error_In in N. simpl.
  apply (Permutation_in _ (sorted_perm (keys m))). exact N.
Qed.

(** ** The text of the manifest *)

Lemma manifest_text_lines (paths : list string) :
  manifest_text paths
  = text_of_lines (map (fun path => "file '" ++ path ++ "'") paths).
Proof.
  induction paths as [|path rest IH]; [reflexivity|].
  rewrite manifest_text_cons, IH. cbn [map text_of_lines].
  rewrite !PyFacts.string_app_assoc. reflexivity.
Qed.

(** ** Renders that succeeded and renders that failed *)

Lemma map_fst_combine {A B} (a : list A) :
  forall b : list B,
    List.length b = List.length a -> map fst (combine a b) = a.
Proof.
  induction a as [|x xs IH]; intros [|y ys]; simpl; try discriminate;
    [reflexivity|].
  intros L. f_equal. apply IH. congruence.
Qed.

Lemma kept_and_dropped {A} (a : list A) :
  forall b : list bool,
    List.length b = List.length a ->
    (List.length (map fst (filter snd (combine a b)))
     + List.length (filter (fun r => negb (snd r)) (combine a b))
     = List.length a)%nat.
Proof.
  induction a as [|x xs IH]; intros [|ok oks]; simpl; try discriminate;
    [reflexivity|].
  intros L. specialize (IH oks ltac:(congruence)).
  destruct ok; simpl; lia.
Qed.

(** C4.  The function first resolves the timing basis [T], which takes at
    most the audio probe.  When [T == 0] it raises the first failure,
    whatever the map holds.  When the map has no scene at all it raises:
    the first failure if [T == 0], the second otherwise.  Both are raised
    before any render: the log holds the probe only.  When [T != 0] and
    the map has a scene, whatever is raised later is neither of the two;
    this includes the maps whose scenes all hold no image: such a map
    passes both checks, nothing is rendered, and the function goes on to
    write the manifest, empty, right after the probe. *)
Theorem precondition_failures (m : PyDict) (voice job_id : string)
        (target : option float) (caps : list string) :
  exists T log0,
    total_duration h target voice [] = (inr T, log0)
    /\ Forall is_probe log0
    /\ (PrimFloat.eqb T 0 = true ->
        create_video_from_prompts h m voice job_id target caps []
        = (inl (Py.Exception no_duration_error), log0))
    /\ (m = [] ->
        exists e,
          create_video_from_prompts h m voice job_id target caps []
          = (inl e, log0)
          /\ precondition_failure e)
    /\ (PrimFloat.eqb T 0 = false -> m = [] ->
        create_video_from_prompts h m voice job_id target caps []
        = (inl (Py.Exception no_prompts_error), log0))
    /\ (PrimFloat.eqb T 0 = false -> m <> [] ->
        forall e,
          fst (create_video_from_prompts h m voice job_id target caps [])
          = inl e ->
          ~ precondition_failure e)
    /\ (PrimFloat.eqb T 0 = false -> m <> [] ->
        Forall (fun scene => snd scene = []) m ->
        create_video_from_prompts h m voice job_id target caps []
        = assemble h job_id voice ([], []) log0
        /\ exists w tail,
             snd (create_video_from_prompts h m voice job_id target caps [])
             = (log0
                ++ WriteFile
                     (Py.path_join (OUTPUT_DIR h)
                        ("segments_" ++ job_id ++ ".txt"))
                     EmptyString w
                :: tail)%list).
Proof.
  destruct (total_duration_run h target voice []) as (T & log0 & E & P).
  simpl in E. exists T, log0. split; [exact E|]. split; [exact P|].
  rewrite (create_video_run h m voice job_id target caps T [] log0 E).
  split; [|split; [|split; [|split]]].
  - intros Z. rewrite Z. reflexivity.
  - intros M. subst m. simpl. unfold precondition_failure.
    destruct (PrimFloat.eqb T 0); eexists; split; eauto.
  - intros Z M. subst m. rewrite Z. reflexivity.
  - intros Z M e. rewrite Z.
    destruct m as [|kv m']; [congruence|]. simpl.
    destruct (snd (planned h (kv :: m') job_id T caps)) as [e'|] eqn:Sp.
    + simpl. intros X. inversion X; subst e'.
      intros [F|F]; exact (planned_exception h _ _ _ _ _ Sp _ F).
    + match goal with
      | |- context [assemble h ?j ?v ?a ?l] =>
          destruct (assemble_run h j v a l) as (w & c & a' & evs & A & _);
          rewrite A
      end.
      unfold assemble_result.
      destruct w, c, a'; simpl; intros X; inversion X; subst e;
        intros [F|F]; discriminate F.
  - intros Z M F. rewrite Z.
    destruct m as [|kv m']; [congruence|]. simpl Nat.eqb. cbv iota zeta.
    rewrite (empty_scenes_planned (kv :: m') job_id T caps F).
    cbn [fst snd outcomes render_events produced combine filter map].
    rewrite extend_nil, app_nil_r. split; [reflexivity|].
    destruct (assemble_run h job_id voice ([], []) log0)
      as (w & c & a & evs & A & _).
    rewrite A. unfold assemble_result, segment_list_file_of.
    cbn [snd manifest_text map String.concat].
    destruct w, c, a; simpl; eexists; eexists; reflexivity.
Qed.

(** C2.  Take a job that passes the two checks and whose loops raise
    nothing of their own.  The segments are those of the scenes in
    ascending order of scene number, and within a scene those of its
    images as listed.  Whatever renders fail, the function goes on to
    write the manifest.  The text written has one line per segment whose
    render succeeded, [file '<absolute path of the segment>'], in the
    order of the segments, and no other line.  The function then runs the
    concatenation and, when that succeeds, the audio step, and returns
    the final path when these three steps succeed.  The lines are as many
    as the segments less the failed renders: 5 for six segments and one
    failure. *)
Theorem render_failure_only_drops_its_segment
        (m : PyDict) (voice job_id : string) (target : option float)
        (caps : list string) (T : float) (log0 : list Event) :
  total_duration h target voice [] = (inr T, log0) ->
  PrimFloat.eqb T 0 = false -> m <> [] ->
  snd (planned h m job_id T caps) = None ->
  let segs := fst (planned h m job_id T caps) in
  let renders := combine segs (outcomes h log0 segs) in
  let done := map fst (filter snd renders) in
  let failed := filter (fun r => negb (snd r)) renders in
  let text :=
    text_of_lines
      (map (fun seg =>
              "file '"
              ++ Py.replace_char Py.sep "/" (abspath h (seg_path seg))
              ++ "'") done) in
  (exists scenes,
      Permutation scenes (keys m)
      /\ StronglySorted Z.le scenes
      /\ map (@seg_image) segs = flat_map (images_of m) scenes
      /\ Forall (fun seg =>
                   exists p,
                     nth_error scenes (seg_scene seg) = Some p
                     /\ nth_error (images_of m p) (seg_index seg)
                        = Some (seg_image seg)
                     /\ seg_path seg
                        = Py.path_join (OUTPUT_DIR h)
                            (job_id ++ "_seg_"
                             ++ Py.str_int (Z.of_nat (seg_scene seg)) ++ "_"
                             ++ Py.str_int (Z.of_nat (seg_index seg))
                             ++ ".mp4")) segs)
  /\ map fst renders = segs
  /\ (List.length done + List.length failed = List.length segs)%nat
  /\ (List.length segs = 6%nat -> List.length failed = 1%nat ->
      List.length done = 5%nat)
  /\ exists w c a evs,
       let manifest :=
         Py.path_join (OUTPUT_DIR h) ("segments_" ++ job_id ++ ".txt") in
       let video :=
         Py.path_join (OUTPUT_DIR h)
           ("video_no_audio_" ++ job_id ++ ".mp4") in
       let final :=
         Py.path_join (OUTPUT_DIR h) ("final_video_" ++ job_id ++ ".mp4") in
       let concat_cmd :=
         [FFMPEG_PATH h; "-y"; "-f"; "concat"; "-safe"; "0"; "-i"; manifest;
          "-c"; "copy"; video] in
       let audio_cmd :=
         [FFMPEG_PATH h; "-y"; "-i"; video; "-i"; voice; "-c:v"; "copy";
          "-c:a"; "aac"; "-shortest"; final] in
       let written := WriteFile manifest text w in
       let concatenated := Run concat_cmd c in
       let muxed := Run audio_cmd a in
       snd (create_video_from_prompts h m voice job_id target caps [])
       = (log0
          ++ map (fun r => Run (seg_cmd (fst r)) (snd r)) renders
          ++ written
             :: (if w then
                   concatenated
                   :: (if c then muxed :: (if a then evs else []) else [])
                 else []))%list
       /\ fst (create_video_from_prompts h m voice job_id target caps [])
          = (if negb w then inl (Py.Exception segment_list_error)
             else if negb c then inl (Py.CalledProcessError concat_cmd)
             else if negb a then inl (Py.CalledProcessError audio_cmd)
             else inr final)
       /\ Forall is_remove evs.
Proof.
  intros E Z M N segs renders done failed text.
  assert (Lo : List.length (outcomes h log0 segs) = List.length segs)
    by apply outcomes_length.
  assert (L : (List.length done + List.length failed = List.length segs)%nat)
    by (apply kept_and_dropped; exact Lo).
  split; [|split; [|split; [exact L|split; [lia|]]]].
  - exists (Py.sorted (keys m)).
    split; [apply sorted_perm|]. split; [apply sorted_ascending|].
    split; [exact (planned_images h m job_id T caps N)|].
    apply Forall_forall. intros seg Hin.
    apply planned_segment in Hin.
    destruct Hin as [p images t Hp Hl Hi _ Hs].
    apply segment_fields in Hs as (_ & _ & _ & _ & _ & _ & Hpath & _).
    exists p. split; [exact Hp|]. unfold images_of. rewrite Hl.
    split; [exact Hi | exact Hpath].
  - apply map_fst_combine. exact Lo.
  - rewrite (create_video_run h m voice job_id target caps T [] log0 E), Z.
    destruct m as [|kv m']; [congruence|]. simpl Nat.eqb. cbv iota zeta.
    rewrite N. fold segs.
    destruct (assemble_run h job_id voice
                (extend h ([], []) (produced segs (outcomes h log0 segs)))
                (log0 ++ render_events segs (outcomes h log0 segs)))
      as (w & c & a & evs & A & F).
    exists w, c, a, evs. rewrite A. clear A.
    unfold assemble_result, extend, cmd_concat, cmd_add_audio,
      segment_list_file_of, concatenated_video_path_of, final_output_path_of.
    cbn [fst snd app]. rewrite manifest_text_lines.
    unfold manifest_entries, manifest_path. rewrite map_map.
    change (produced segs (outcomes h log0 segs)) with done.
    change (render_events segs (outcomes h log0 segs))
      with (map (fun r => Run (seg_cmd (fst r)) (snd r)) renders).
    fold text.
    destruct w, c, a; cbn [negb fst snd]; rewrite <- ?app_assoc;
      (split; [reflexivity | split; [reflexivity | exact F]]).
Qed.

End Assembly.

Lemma precondition_failures_witness :
  create_video_from_prompts (Sample.host [] None) Sample.three_scenes
    "voice.mp3" "job" None Sample.captions []
  = (inl (Py.Exception (no_duration_error)),
     [Probe (ffprobe_cmd (Sample.host [] None) "voice.mp3") None])
  /\ create_video_from_prompts (Sample.host [] (Some 30%float)) []
       "voice.mp3" "job" None Sample.captions []
     = (inl (Py.Exception no_prompts_error),
        [Probe (ffprobe_cmd (Sample.host [] None) "voice.mp3")
           (Some 30%float)])
  /\ create_video_from_prompts (Sample.host [] (Some 30%float))
       [(1%Z, []); (2%Z, [])] "voice.mp3" "job" None Sample.captions []
     = assemble (Sample.host [] (Some 30%float)) "job" "voice.mp3" ([], [])
         [Probe (ffprobe_cmd (Sample.host [] None) "voice.mp3")
            (Some 30%float)].
Proof.
  split; [|split].
  - destruct (precondition_failures (Sample.host [] None) Sample.three_scenes
                "voice.mp3" "job" None Sample.captions)
      as (T & log0 & E & _ & Z & _).
    vm_compute in E. inversion E; subst T log0. exact (Z eq_refl).
  - destruct (precondition_failures (Sample.host [] (Some 30%float)) []
                "voice.mp3" "job" None Sample.captions)
      as (T & log0 & E & _ & _ & _ & M & _).
    vm_compute in E. inversion E; subst T log0.
    exact (M ltac:(vm_compute; reflexivity) eq_refl).
  - destruct (precondition_failures (Sample.host [] (Some 30%float))
                [(1%Z, []); (2%Z, [])]
                "voice.mp3" "job" None Sample.captions)
      as (T & log0 & E & _ & _ & _ & _ & _ & P).
    vm_compute in E. inversion E; subst T log0.
    exact (proj1 (P ltac:(vm_compute; reflexivity) ltac:(discriminate)
                    ltac:(repeat constructor))).
Defined.

(** A map whose only scene holds no image, with a voice track of 30
    seconds: neither failure is raised, nothing is rendered, and the
    function returns the final path. *)
Lemma scene_without_images_is_not_refused :
  Forall (fun scene => snd scene = []) [(1%Z, @nil string)]
  /\ create_video_from_prompts (Sample.host [] (Some 30%float))
       [(1%Z, [])] "voice.mp3" "job" None Sample.captions []
     = (inr "/app/output/final_video_job.mp4",
        [Probe (ffprobe_cmd (Sample.host [] None) "voice.mp3")
           (Some 30%float);
         WriteFile "/app/output/segments_job.txt" EmptyString true;
         Run (cmd_concat (Sample.host [] None) "job") true;
         Run (cmd_add_audio (Sample.host [] None) "job" "voice.mp3") true;
         Remove "/app/output/segments_job.txt" true;
         Remove "/app/output/video_no_audio_job.mp4" true]).
Proof.
  split; [repeat constructor|]. vm_compute. reflexivity.
Qed.

Lemma render_failure_only_drops_its_segment_witness :
  let h := Sample.third_render_fails in
  let log0 := [Probe (ffprobe_cmd h "voice.mp3") (Some 30%float)] in
  let segs := fst (planned h Sample.three_scenes "job" 30 Sample.captions) in
  let renders := combine segs (outcomes h log0 segs) in
  List.length segs = 6%nat
  /\ List.length (filter (fun r => negb (snd r)) renders) = 1%nat
  /\ List.length (map fst (filter snd renders)) = 5%nat
  /\ exists w,
       In (WriteFile "/app/output/segments_job.txt"
             (text_of_lines
                ["file '/app/output/job_seg_0_0.mp4'";
                 "file '/app/output/job_seg_0_1.mp4'";
                 "file '/app/output/job_seg_1_1.mp4'";
                 "file '/app/output/job_seg_2_0.mp4'";
                 "file '/app/output/job_seg_2_1.mp4'"]) w)
          (snd (create_video_from_prompts h Sample.three_scenes "voice.mp3"
                  "job" None Sample.captions []))
       /\ fst (create_video_from_prompts h Sample.three_scenes "voice.mp3"
                 "job" None Sample.captions [])
          = inr "/app/output/final_video_job.mp4".
Proof.
  intros h log0 segs renders.
  assert (S6 : List.length segs = 6%nat) by (vm_compute; reflexivity).
  assert (F1 : List.length (filter (fun r => negb (snd r)) renders) = 1%nat)
    by (vm_compute; reflexivity).
  pose proof (render_failure_only_drops_its_segment h Sample.three_scenes
                "voice.mp3" "job" None Sample.captions 30%float log0
                ltac:(vm_compute; reflexivity) ltac:(vm_compute; reflexivity)
                ltac:(discriminate) ltac:(vm_compute; reflexivity))
    as (_ & _ & _ & Five & w & c & a & evs & Log & Res & _).
  split; [exact S6|]. split; [exact F1|]. split; [exact (Five S6 F1)|].
  exists w. split.
  - rewrite Log. apply in_or_app. right. apply in_or_app. right.
    left. vm_compute. reflexivity.
  - vm_compute. reflexivity.
Defined.
